(** * SatelliteTracker: the simulation core, embedded and verified

    A shallow embedding of [models.py] (entities, satellites, debris, the
    debris generator) and [simulation.py] (collision detector, simulation
    loop), followed by the properties of the specification.

    Conventions of the embedding.
    - Python floats are idealised as real numbers ([R]); comparisons are the
      boolean tests [Rltb] and [Rleb].  Where rounding could change an
      outcome (the remainder [%], a subtraction repeated tick after tick),
      the properties are stated as bounds that the rounded computation
      meets as well.
    - Python objects held in the simulation's lists are identified by their
      position in the list.  A snapshot such as [active_sats] is a list of
      positions, so that a mutation made through the snapshot is seen through
      the owning list and conversely, as with Python references.
    - The pseudo-random source is explicit: every function that calls
      [random] takes the drawn values as arguments. *)

From Stdlib Require Import Reals Lra Lia DecimalNat DecimalString.
From stdpp Require Import base list strings.

Local Open Scope R_scope.

(** ** Numbers *)

Definition Rltb (a b : R) : bool := if Rlt_dec a b then true else false.
Definition Rleb (a b : R) : bool := if Rle_dec a b then true else false.

(** [max(a, b)] and [min(a, b)] of Python: the first argument is kept unless
    the second is strictly larger (smaller). *)
Definition py_max (a b : R) : R := if Rltb a b then b else a.
Definition py_min (a b : R) : R := if Rltb b a then b else a.

(** [a % m] for a positive modulus, as a real number:
    [a - m * floor (a / m)].  Python computes the remainder of the
    truncated division exactly and, when it is negative, adds [m] to it;
    that addition is rounded, so that for a tiny negative [a] the float
    result is [m] itself.  The properties below rely on the range
    [[0, m]], both ends included, and on [a % m = a] for [0 <= a < m],
    where no rounding occurs. *)
Definition py_mod (a m : R) : R := a - m * IZR (Int_part (a / m)).

(** [math.radians]. *)
Definition radians (deg : R) : R := deg * (PI / 180).

(** [str(n)] for a non-negative integer. *)
Definition str_of_nat (n : nat) : string := NilZero.string_of_uint (Nat.to_uint n).

(** ** models.py *)

(** *** class CelestialObject *)

Record CelestialObject : Type := mkObject {
  name : string;
  x : R;
  y : R;
  speed : R;
  angle : R;
  active : bool
}.

Module Object.

(** [CelestialObject.__init__]: the five arguments are stored as given. *)
Definition init (n : string) (x0 y0 v a : R) : CelestialObject :=
  mkObject n x0 y0 v a true.

Definition deactivate (o : CelestialObject) : CelestialObject :=
  mkObject (name o) (x o) (y o) (speed o) (angle o) false.

Definition update (o : CelestialObject) : CelestialObject :=
  if negb (active o) then o
  else
    let rad := radians (angle o) in
    mkObject (name o) (x o + speed o * cos rad) (y o + speed o * sin rad)
             (speed o) (angle o) (active o).

Definition distance_to (o other : CelestialObject) : R :=
  sqrt ((x o + x other) ^ 2 + (y o + y other) ^ 2).

End Object.

(** *** class Satellite *)

Inductive Status : Type := Nominal | Warning | Critical | Deorbited.

Record Satellite : Type := mkSatellite {
  sat_obj : CelestialObject;
  fuel : R;
  status : Status
}.

Module Sat.

(** [Satellite.__init__]; [fuel] defaults to [100.0] at the call site. *)
Definition init (n : string) (x0 y0 v a f : R) : Satellite :=
  mkSatellite (Object.init n x0 y0 v a) f Nominal.

Definition set_angle (a : R) (s : Satellite) : Satellite :=
  let o := sat_obj s in
  mkSatellite (mkObject (name o) (x o) (y o) (speed o) a (active o))
              (fuel s) (status s).

Definition set_speed (v : R) (s : Satellite) : Satellite :=
  let o := sat_obj s in
  mkSatellite (mkObject (name o) (x o) (y o) v (angle o) (active o))
              (fuel s) (status s).

Definition set_fuel (f : R) (s : Satellite) : Satellite :=
  mkSatellite (sat_obj s) f (status s).

Definition set_status (st : Status) (s : Satellite) : Satellite :=
  mkSatellite (sat_obj s) (fuel s) st.

Definition deactivate (s : Satellite) : Satellite :=
  mkSatellite (Object.deactivate (sat_obj s)) (fuel s) (status s).

Definition _update_status (s : Satellite) : Satellite :=
  if Rleb (fuel s) 0 then set_status Critical (set_fuel 0 s)
  else if Rltb (fuel s) 20 then set_status Warning s
  else set_status Nominal s.

Definition change_angle (new_angle : R) (s : Satellite) : Satellite :=
  if Rleb (fuel s) 0 then s
  else
    let s1 := set_angle (py_mod new_angle 360) s in
    let s2 := set_fuel (fuel s1 - 2) s1 in
    _update_status s2.

Definition change_speed (new_speed : R) (s : Satellite) : Satellite :=
  if Rleb (fuel s) 0 then s
  else
    let s1 := set_speed (py_max 0.5 (py_min new_speed 5)) s in
    let s2 := set_fuel (fuel s1 - 1.5) s1 in
    _update_status s2.

(** [deorbit] returns its boolean result with the satellite after the
    call. *)
Definition deorbit (s : Satellite) : bool * Satellite :=
  if Rleb 5 (fuel s) then
    let s1 := set_status Deorbited s in
    let s2 := set_fuel (fuel s1 - 5) s1 in
    (true, deactivate s2)
  else (false, s).

Definition update (s : Satellite) : Satellite :=
  let s1 := mkSatellite (Object.update (sat_obj s)) (fuel s) (status s) in
  if active (sat_obj s1) then _update_status (set_fuel (fuel s1 - 0.1) s1)
  else s1.

End Sat.

(** *** class Debris *)

Record Debris : Type := mkDebris {
  deb_obj : CelestialObject;
  size : string
}.

Module Deb.

(** [Debris.__init__]; [size] defaults to ["small"] at the call site. *)
Definition init (n : string) (x0 y0 v a : R) (sz : string) : Debris :=
  mkDebris (Object.init n x0 y0 v a) sz.

(** [radii.get(self._size, 15)]. *)
Definition danger_radius (d : Debris) : R :=
  if String.eqb (size d) "small" then 15
  else if String.eqb (size d) "medium" then 25
  else if String.eqb (size d) "large" then 40
  else 15.

Definition deactivate (d : Debris) : Debris :=
  mkDebris (Object.deactivate (deb_obj d)) (size d).

(** Inherited [CelestialObject.update]. *)
Definition update (d : Debris) : Debris :=
  mkDebris (Object.update (deb_obj d)) (size d).

End Deb.

(** *** class DebrisField *)

Definition DEBRIS_NAMES : list string :=
  ["Alpha"; "Beta"; "Gamma"; "Delta"; "Epsilon";
   "Zeta"; "Eta"; "Theta"; "Iota"; "Kappa"]%string.

(** The outcome of [random.choice(["top", "bottom", "left", "right"])]. *)
Inductive Side : Type := SideTop | SideBottom | SideLeft | SideRight.

(** The values drawn by one call of [generate]: the side, then one
    [random.random()] value in [[0, 1)] for each of the coordinate, the
    heading, the size and the speed, and the index chosen in
    [DEBRIS_NAMES]. *)
Record GenDraws : Type := mkGenDraws {
  g_side : Side;
  g_coord : R;
  g_angle : R;
  g_size : R;
  g_speed : R;
  g_name : nat
}.

Definition unit_draw (u : R) : Prop := 0 <= u < 1.

Definition valid_gen (g : GenDraws) : Prop :=
  unit_draw (g_coord g) /\ unit_draw (g_angle g) /\ unit_draw (g_size g) /\
  unit_draw (g_speed g) /\ (g_name g < length DEBRIS_NAMES)%nat.

(** [random.uniform(a, b)] is [a + (b - a) * random.random()]. *)
Definition uniform (a b u : R) : R := a + (b - a) * u.

(** [random.choices(["small", "medium", "large"], weights=[60, 30, 10])[0]]:
    the cumulative weights 60, 90, 100 are bisected at [random() * 100]. *)
Definition choose_size (u : R) : string :=
  if Rltb (u * 100) 60 then "small"
  else if Rltb (u * 100) 90 then "medium"
  else "large".

Record DebrisField : Type := mkDebrisField {
  field_width : R;
  field_height : R;
  field_counter : nat
}.

Module Field.

Definition init (w h : R) : DebrisField := mkDebrisField w h 0.

(** [generate] returns the new debris with the field after the call (its
    counter incremented). *)
Definition generate (g : GenDraws) (f : DebrisField) : Debris * DebrisField :=
  let '(x0, y0, a) :=
    match g_side g with
    | SideTop => (uniform 0 (field_width f) (g_coord g), 0,
                  uniform 150 210 (g_angle g))
    | SideBottom => (uniform 0 (field_width f) (g_coord g), field_height f,
                     uniform (-30) 30 (g_angle g))
    | SideLeft => (0, uniform 0 (field_height f) (g_coord g),
                   uniform (-45) 45 (g_angle g))
    | SideRight => (field_width f, uniform 0 (field_height f) (g_coord g),
                    uniform 135 225 (g_angle g))
    end in
  let sz := choose_size (g_size g) in
  let v := uniform 1 3 (g_speed g) in
  let n := (default "" (DEBRIS_NAMES !! g_name g) +:+ "-" +:+
            str_of_nat (field_counter f))%string in
  (Deb.init n x0 y0 v a sz,
   mkDebrisField (field_width f) (field_height f) (S (field_counter f))).

End Field.

(** ** simulation.py *)

(** An argument of the collision detector: an instance of the base class or
    of one of its two subclasses, as told apart by [isinstance]. *)
Inductive Entity : Type :=
| EObject (o : CelestialObject)
| ESat (s : Satellite)
| EDeb (d : Debris).

Definition obj_of (e : Entity) : CelestialObject :=
  match e with
  | EObject o => o
  | ESat s => sat_obj s
  | EDeb d => deb_obj d
  end.

(** [a.distance_to(b)] on any two entities. *)
Definition distance_to (a b : Entity) : R :=
  Object.distance_to (obj_of a) (obj_of b).

(** *** class CollisionDetector *)

Module Detector.

Definition SATELLITE_RADIUS : R := 20.

Definition check_collision (obj1 obj2 : Entity) : bool :=
  let distance := distance_to obj1 obj2 in
  match obj1, obj2 with
  | ESat _, EDeb d2 => Rltb distance (SATELLITE_RADIUS + Deb.danger_radius d2)
  | EDeb d1, ESat _ => Rltb distance (SATELLITE_RADIUS + Deb.danger_radius d1)
  | ESat _, ESat _ => Rltb distance (SATELLITE_RADIUS * 2)
  | _, _ => false
  end.

(** [warning_distance] defaults to [80.0] at the call site. *)
Definition check_proximity_warning (sat : Satellite) (obj : Entity)
    (warning_distance : R) : bool :=
  Rltb (distance_to (ESat sat) obj) warning_distance.

End Detector.

(** *** class Simulation *)

Definition AREA_WIDTH : R := 800.
Definition AREA_HEIGHT : R := 600.

Record Simulation : Type := mkSimulation {
  satellites : list Satellite;
  debris_list : list Debris;
  debris_field : DebrisField;
  tick_count : nat;
  score : nat;
  collisions : nat;
  deorbited : nat;
  game_over : bool;
  events : list string
}.

(** The dictionary returned by [get_stats]. *)
Record Stats : Type := mkStats {
  st_tick : nat;
  st_score : nat;
  st_satellites_actifs : nat;
  st_collisions : nat;
  st_desorbites : nat;
  st_debris_en_zone : nat
}.

(** The values drawn by one [tick]: the [random.random()] compared with the
    spawn chance and, used only when a debris is spawned, the draws of
    [generate]. *)
Record TickDraws : Type := mkTickDraws {
  t_roll : R;
  t_gen : GenDraws
}.


Definition sat_active (s : Satellite) : bool := active (sat_obj s).
Definition deb_active (d : Debris) : bool := active (deb_obj d).
Definition sat_name (s : Satellite) : string := name (sat_obj s).
Definition deb_name (d : Debris) : string := name (deb_obj d).

(** The positions, counted from [k], of the elements of [l] that satisfy
    [p]: the references held by a list comprehension [[e for e in l if p]]. *)
Fixpoint positions_from {A : Type} (p : A -> bool) (k : nat) (l : list A)
    : list nat :=
  match l with
  | [] => []
  | a :: l' =>
      if p a then k :: positions_from p (S k) l' else positions_from p (S k) l'
  end.

Definition positions {A : Type} (p : A -> bool) (l : list A) : list nat :=
  positions_from p 0 l.

(** [len([s for s in self._satellites if s.active])]. *)
Definition active_count (s : Simulation) : nat :=
  length (List.filter sat_active (satellites s)).

Module Sim.

Definition init : Simulation :=
  mkSimulation [] [] (Field.init AREA_WIDTH AREA_HEIGHT) 0 0 0 0 false [].

(** [pop_events] returns the events with the simulation after the call. *)
Definition pop_events (s : Simulation) : list string * Simulation :=
  (events s,
   mkSimulation (satellites s) (debris_list s) (debris_field s)
                (tick_count s) (score s) (collisions s) (deorbited s)
                (game_over s) []).

Definition add_satellite (sat : Satellite) (s : Simulation) : Simulation :=
  mkSimulation (satellites s ++ [sat]) (debris_list s) (debris_field s)
               (tick_count s) (score s) (collisions s) (deorbited s)
               (game_over s) (events s).

(** The body of the satellite-debris loop of [_check_all_collisions] for
    the satellite at position [i] and the debris at position [j].  Both
    come from the snapshots, so both are in range; the last branch is
    never taken. *)
Definition sat_debris_step (i j : nat) (s : Simulation) : Simulation :=
  match satellites s !! i, debris_list s !! j with
  | Some sat, Some deb =>
      if Detector.check_collision (ESat sat) (EDeb deb) then
        mkSimulation (alter Sat.deactivate i (satellites s))
                     (alter Deb.deactivate j (debris_list s))
                     (debris_field s) (tick_count s) (score s)
                     (collisions s + 1) (deorbited s) (game_over s)
                     (events s ++
                        ["COLLISION : " +:+ sat_name sat +:+ " touché par "
                           +:+ deb_name deb +:+ " !"]%string)
      else if Detector.check_proximity_warning sat (EDeb deb) 80 then
        mkSimulation (satellites s) (debris_list s) (debris_field s)
                     (tick_count s) (score s) (collisions s) (deorbited s)
                     (game_over s)
                     (events s ++
                        ["ALERTE : " +:+ deb_name deb +:+ " proche de "
                           +:+ sat_name sat]%string)
      else s
  | _, _ => s
  end.

Definition sat_debris_loop (active_sats active_debris : list nat)
    (s : Simulation) : Simulation :=
  foldl (fun s1 i => foldl (fun s2 j => sat_debris_step i j s2) s1 active_debris)
        s active_sats.

(** The body of the satellite-satellite loop: [i] and [j] index the
    snapshot [active_sats], whose entries are positions in
    [self._satellites]. *)
Definition sat_pair_step (active_sats : list nat) (i j : nat)
    (s : Simulation) : Simulation :=
  match active_sats !! i, active_sats !! j with
  | Some a, Some b =>
      match satellites s !! a, satellites s !! b with
      | Some sa, Some sb =>
          if Detector.check_collision (ESat sa) (ESat sb) then
            mkSimulation
              (alter Sat.deactivate b (alter Sat.deactivate a (satellites s)))
              (debris_list s) (debris_field s) (tick_count s) (score s)
              (collisions s + 2) (deorbited s) (game_over s)
              (events s ++
                 ["COLLISION : " +:+ sat_name sa +:+ " et "
                    +:+ sat_name sb +:+ " !"]%string)
          else s
      | _, _ => s
      end
  | _, _ => s
  end.

Definition sat_pair_loop (active_sats : list nat) (s : Simulation)
    : Simulation :=
  let n := length active_sats in
  foldl (fun s1 i =>
           foldl (fun s2 j => sat_pair_step active_sats i j s2) s1
                 (seq (S i) (n - S i)))
        s (seq 0 n).

Definition _check_all_collisions (s : Simulation) : Simulation :=
  let active_sats := positions sat_active (satellites s) in
  let active_debris := positions deb_active (debris_list s) in
  sat_pair_loop active_sats (sat_debris_loop active_sats active_debris s).

Definition in_bounds (d : Debris) : bool :=
  let margin := 50 in
  deb_active d
  && (Rltb (- margin) (x (deb_obj d))
      && Rltb (x (deb_obj d)) (AREA_WIDTH + margin))
  && (Rltb (- margin) (y (deb_obj d))
      && Rltb (y (deb_obj d)) (AREA_HEIGHT + margin)).

Definition _cleanup_out_of_bounds (s : Simulation) : Simulation :=
  mkSimulation (satellites s) (List.filter in_bounds (debris_list s))
               (debris_field s) (tick_count s) (score s) (collisions s)
               (deorbited s) (game_over s) (events s).

Definition spawn_chance (ticks : nat) : R :=
  py_min (0.05 + INR ticks * 0.0005) 0.3.

(** The first half of [tick]: counter, motion, spawning. *)
Definition advance (rnd : TickDraws) (s : Simulation) : Simulation :=
  let ticks := S (tick_count s) in
  let sats := map Sat.update (satellites s) in
  let debs := map Deb.update (debris_list s) in
  if Rltb (t_roll rnd) (spawn_chance ticks) then
    let '(deb, fld) := Field.generate (t_gen rnd) (debris_field s) in
    mkSimulation sats (debs ++ [deb]) fld ticks (score s) (collisions s)
                 (deorbited s) (game_over s) (events s)
  else
    mkSimulation sats debs (debris_field s) ticks (score s) (collisions s)
                 (deorbited s) (game_over s) (events s).

(** The last part of [tick]: score and game over. *)
Definition settle (s : Simulation) : Simulation :=
  let n := active_count s in
  mkSimulation (satellites s) (debris_list s) (debris_field s)
               (tick_count s) (score s + n) (collisions s) (deorbited s)
               (if Nat.eqb n 0 && Nat.ltb 10 (tick_count s) then true
                else game_over s)
               (events s).

Definition tick (rnd : TickDraws) (s : Simulation) : Simulation :=
  if game_over s then s
  else settle (_cleanup_out_of_bounds (_check_all_collisions (advance rnd s))).

(** The loop of [deorbit_satellite] over [self._satellites]: [None] when
    no active satellite has the name, otherwise the satellite found, the
    result of its [deorbit] and the list after the call. *)
Fixpoint deorbit_scan (n : string) (l : list Satellite)
    : option (Satellite * bool * list Satellite) :=
  match l with
  | [] => None
  | sat :: rest =>
      if String.eqb (sat_name sat) n && sat_active sat then
        let '(ok, sat') := Sat.deorbit sat in Some (sat', ok, sat' :: rest)
      else
        match deorbit_scan n rest with
        | Some (found, ok, rest') => Some (found, ok, sat :: rest')
        | None => None
        end
  end.

Definition deorbit_satellite (n : string) (s : Simulation)
    : bool * Simulation :=
  match deorbit_scan n (satellites s) with
  | Some (sat, true, sats) =>
      (true,
       mkSimulation sats (debris_list s) (debris_field s) (tick_count s)
                    (score s) (collisions s + 1) (deorbited s) (game_over s)
                    (events s ++
                       [sat_name sat +:+ " désorbité avec succès !"]%string))
  | Some (sat, false, sats) =>
      (false,
       mkSimulation sats (debris_list s) (debris_field s) (tick_count s)
                    (score s) (collisions s) (deorbited s) (game_over s)
                    (events s ++
                       [sat_name sat
                          +:+ " : carburant insuffisant pour désorbiter"]%string))
  | None => (false, s)
  end.

Definition get_stats (s : Simulation) : Stats :=
  mkStats (tick_count s) (score s) (active_count s) (collisions s)
          (deorbited s) (length (debris_list s)).

End Sim.

(** ** main_window.py: the calls made on the core *)

Module Window.

(** The loops of [_change_angle] and [_change_speed]: the mutator is called
    on every satellite that has the selected name and is active. *)
Definition on_selected (f : Satellite -> Satellite) (selected : string)
    (s : Simulation) : Simulation :=
  mkSimulation
    (map (fun sat =>
            if String.eqb (sat_name sat) selected && sat_active sat
            then f sat else sat)
         (satellites s))
    (debris_list s) (debris_field s) (tick_count s) (score s)
    (collisions s) (deorbited s) (game_over s) (events s).

(** [selected] is [self._selected_satellite]: [None], or a string that is
    falsy when empty. *)
Definition is_selected (selected : option string) : option string :=
  match selected with
  | Some n => if String.eqb n "" then None else Some n
  | None => None
  end.

Definition _change_angle (selected : option string) (slider : R)
    (s : Simulation) : Simulation :=
  match is_selected selected with
  | Some n => on_selected (Sat.change_angle slider) n s
  | None => s
  end.

Definition _change_speed (selected : option string) (slider : R)
    (s : Simulation) : Simulation :=
  match is_selected selected with
  | Some n => on_selected (Sat.change_speed (slider / 10)) n s
  | None => s
  end.

Definition _deorbit_selected (selected : option string) (s : Simulation)
    : Simulation :=
  match is_selected selected with
  | Some n => snd (Sim.deorbit_satellite n s)
  | None => s
  end.

End Window.

(** ** Runs *)

(** A method called on one satellite. *)
Inductive SatCall : Type :=
| CallUpdate
| CallChangeAngle (new_angle : R)
| CallChangeSpeed (new_speed : R)
| CallDeorbit
| CallDeactivate.

Definition sat_call (c : SatCall) (s : Satellite) : Satellite :=
  match c with
  | CallUpdate => Sat.update s
  | CallChangeAngle a => Sat.change_angle a s
  | CallChangeSpeed v => Sat.change_speed v s
  | CallDeorbit => snd (Sat.deorbit s)
  | CallDeactivate => Sat.deactivate s
  end.

Definition sat_run (cs : list SatCall) (s : Satellite) : Satellite :=
  foldl (fun s1 c => sat_call c s1) s cs.




(** An operation on the simulation: a method of [Simulation], a handler of
    the window, or a method called on the satellite at position [i] of the
    list that the [satellites] property exposes.  With [i] out of range
    Python raises [IndexError] before any write: the state is unchanged. *)
Inductive Op : Type :=
| OpTick (rnd : TickDraws)
| OpAddSatellite (sat : Satellite)
| OpPopEvents
| OpDeorbitSatellite (n : string)
| OpChangeAngle (selected : option string) (slider : R)
| OpChangeSpeed (selected : option string) (slider : R)
| OpSatCall (i : nat) (c : SatCall).

Definition step (o : Op) (s : Simulation) : Simulation :=
  match o with
  | OpTick rnd => Sim.tick rnd s
  | OpAddSatellite sat => Sim.add_satellite sat s
  | OpPopEvents => snd (Sim.pop_events s)
  | OpDeorbitSatellite n => snd (Sim.deorbit_satellite n s)
  | OpChangeAngle sel v => Window._change_angle sel v s
  | OpChangeSpeed sel v => Window._change_speed sel v s
  | OpSatCall i c =>
      mkSimulation (alter (sat_call c) i (satellites s)) (debris_list s)
                   (debris_field s) (tick_count s) (score s) (collisions s)
                   (deorbited s) (game_over s) (events s)
  end.

Definition run (ops : list Op) (s : Simulation) : Simulation :=
  foldl (fun s1 o => step o s1) s ops.

Definition reachable (s : Simulation) : Prop :=
  exists ops, s = run ops Sim.init.

(** ** Vocabulary of the specification *)

(** The status that the fuel thresholds give. *)
Definition status_by_fuel (s : Satellite) : Prop :=
  (20 <= fuel s -> status s = Nominal) /\
  (0 < fuel s < 20 -> status s = Warning) /\
  (fuel s = 0 -> status s = Critical).

(** The invariant of a satellite constructed with fuel [f0]: the status is
    deorbited, or the one of the thresholds, or still the one of the
    constructor with the fuel of the constructor. *)
Definition fuel_invariant (f0 : R) (s : Satellite) : Prop :=
  0 <= fuel s
  /\ (status s = Deorbited \/ status_by_fuel s
      \/ (status s = Nominal /\ fuel s = f0)).

(** [clamp(v, lo, hi)]. *)
Definition clamp (v lo hi : R) : R := Rmax lo (Rmin v hi).

Definition angle_normalized (o : CelestialObject) : Prop :=
  0 <= angle o < 360.

(** The heading lies within one turn, both ends included. *)
Definition angle_within_turn (o : CelestialObject) : Prop :=
  0 <= angle o <= 360.

(** The fields of a satellite that a control operation may leave alone. *)
Definition same_position (s s' : Satellite) : Prop :=
  name (sat_obj s') = name (sat_obj s) /\ x (sat_obj s') = x (sat_obj s) /\
  y (sat_obj s') = y (sat_obj s).

(** The sum of the two positions, measured from the origin. *)
Definition summed_distance (a b : CelestialObject) : R :=
  sqrt (Rsqr (x a + x b) + Rsqr (y a + y b)).

(** The collision threshold of a pair, when the pair can collide. *)
Definition collision_threshold (e1 e2 : Entity) : option R :=
  match e1, e2 with
  | ESat _, EDeb d | EDeb d, ESat _ => Some (20 + Deb.danger_radius d)
  | ESat _, ESat _ => Some 40
  | _, _ => None
  end.

(** What the collision pass and the cleanup never write. *)
Definition frame (s : Simulation) : DebrisField * nat * nat * nat * bool :=
  (debris_field s, tick_count s, score s, deorbited s, game_over s).

(** The condition that [tick] tests before it sets [game_over]. *)
Definition all_lost (s : Simulation) : Prop :=
  active_count s = 0%nat /\ (10 < tick_count s)%nat.

(** ** Vocabulary of the further properties *)

(** The entity [b] is [a], possibly deactivated. *)
Definition sat_deactivated (a b : Satellite) : Prop :=
  b = a \/ b = Sat.deactivate a.
Definition deb_deactivated (a b : Debris) : Prop :=
  b = a \/ b = Deb.deactivate a.

(** What the collision pass may do to a simulation: deactivate entities,
    append events, raise the collision counter. *)
Definition pass_effect (s s' : Simulation) : Prop :=
  Forall2 sat_deactivated (satellites s) (satellites s')
  /\ Forall2 deb_deactivated (debris_list s) (debris_list s')
  /\ (exists new, events s' = events s ++ new)
  /\ (collisions s <= collisions s')%nat
  /\ frame s' = frame s.

(** The satellite [b] has the name of [a] and is inactive if [a] is. *)
Definition sat_kept (a b : Satellite) : Prop :=
  sat_name b = sat_name a /\ (sat_active a = false -> sat_active b = false).

(** The name that [generate] forms from the choice [i] in the pool and the
    counter [c]. *)
Definition debris_name (i c : nat) : string :=
  (default "" (DEBRIS_NAMES !! i) +:+ "-" +:+ str_of_nat c)%string.

(** The debris of [l] carry names formed with distinct counters below
    [k]. *)
Definition names_fresh (k : nat) (l : list Debris) : Prop :=
  Forall (fun d => exists i c, (c < k)%nat /\ deb_name d = debris_name i c) l
  /\ NoDup (map deb_name l).

(** The position lies in the arena extended by the margin of 50. *)
Definition in_zone (o : CelestialObject) : Prop :=
  -50 < x o < AREA_WIDTH + 50 /\ -50 < y o < AREA_HEIGHT + 50.

(** What holds of the debris of a simulation between two operations. *)
Definition debris_invariant (s : Simulation) : Prop :=
  Forall (fun d => deb_active d = true /\ in_zone (deb_obj d)) (debris_list s)
  /\ names_fresh (field_counter (debris_field s)) (debris_list s)
  /\ (length (debris_list s) <= field_counter (debris_field s))%nat
  /\ (field_counter (debris_field s) <= tick_count s)%nat.

(** The collisions that the pass counts, judged on the state [s] at the
    start of the pass: 1 when the satellite at position [i] and the debris
    at position [j] collide, 1 when the satellites at positions [a] and
    [b] do. *)
Definition hit_sat_deb (s : Simulation) (i j : nat) : nat :=
  match satellites s !! i, debris_list s !! j with
  | Some sat, Some deb =>
      if Detector.check_collision (ESat sat) (EDeb deb) then 1 else 0
  | _, _ => 0
  end.

Definition hit_sat_sat (s : Simulation) (snap : list nat) (i j : nat) : nat :=
  match snap !! i, snap !! j with
  | Some a, Some b =>
      match satellites s !! a, satellites s !! b with
      | Some sa, Some sb =>
          if Detector.check_collision (ESat sa) (ESat sb) then 1 else 0
      | _, _ => 0
      end
  | _, _ => 0
  end.

(** The colliding satellite-debris pairs of the snapshots, plus twice the
    colliding pairs of satellites of the snapshot. *)
Definition pass_hits (s : Simulation) : nat :=
  let active_sats := positions sat_active (satellites s) in
  let active_debris := positions deb_active (debris_list s) in
  let n := length active_sats in
  (sum_list_with
     (fun i => sum_list_with (fun j => hit_sat_deb s i j) active_debris)
     active_sats
   + 2 * sum_list_with
           (fun i => sum_list_with (fun j => hit_sat_sat s active_sats i j)
                                   (seq (S i) (n - S i)))
           (seq 0 n))%nat.

(** ** A scenario: two satellites and a debris spawned at the origin *)

Definition ex_sat_a : Satellite := Sat.init "A" 0 0 0 0 100.
Definition ex_sat_b : Satellite := Sat.init "B" 36 0 0 0 100.

Definition ex_state : Simulation :=
  Sim.add_satellite ex_sat_b (Sim.add_satellite ex_sat_a Sim.init).

(** A spawn on the top edge, every draw being 0. *)
Definition ex_draws : TickDraws := mkTickDraws 0 (mkGenDraws SideTop 0 0 0 0 0).

Definition ex_a (act : bool) : Satellite :=
  mkSatellite (mkObject "A" 0 0 0 0 act) (100 - 0.1) Nominal.
Definition ex_b (act : bool) : Satellite :=
  mkSatellite (mkObject "B" 36 0 0 0 act) (100 - 0.1) Nominal.
Definition ex_d (act : bool) : Debris :=
  mkDebris (mkObject "Alpha-0" 0 0 1 150 act) "small".


(** The scenario after the motion and the spawn, after the
    satellite-debris loop, after the satellite-satellite loop, and at the
    end of the tick. *)
Definition ex_moved : Simulation :=
  mkSimulation [ex_a true; ex_b true] [ex_d true]
               (mkDebrisField AREA_WIDTH AREA_HEIGHT 1) 1 0 0 0 false [].

(** ** A scenario: one satellite, lost or not, and ticks that spawn nothing *)

Definition ex_sat_x : Satellite := Sat.init "X" 0 0 0 0 100.

(** A tick whose roll is above every spawn chance. *)
Definition ex_idle : Op :=
  OpTick (mkTickDraws 0.9 (mkGenDraws SideTop 0 0 0 0 0)).

(** The satellite is added and deorbited, then [n] ticks run. *)
Definition ex_lost_run (n : nat) : list Op :=
  [OpAddSatellite ex_sat_x; OpDeorbitSatellite "X"] ++ replicate n ex_idle.

(** The satellite is added and left alone, then [n] ticks run. *)
Definition ex_alive_run (n : nat) : list Op :=
  OpAddSatellite ex_sat_x :: replicate n ex_idle.

(** The state after [ex_lost_run n], for [n] up to 11. *)
Definition ex_lost (n : nat) : Simulation :=
  mkSimulation [mkSatellite (mkObject "X" 0 0 0 0 false) (100 - 5) Deorbited]
               [] (Field.init AREA_WIDTH AREA_HEIGHT) n 0 1 0 (Nat.ltb 10 n)
               ["X désorbité avec succès !"%string].

(** ** A scenario: two ticks that each spawn a debris on the left edge *)

Definition ex_spawn (i : nat) : TickDraws :=
  mkTickDraws 0 (mkGenDraws SideLeft 0.5 0.5 0 0.5 i).

Definition ex_deb0 (x0 : R) : Debris :=
  mkDebris (mkObject "Alpha-0" x0 300 2 0 true) "small".
Definition ex_deb1 : Debris :=
  mkDebris (mkObject "Beta-1" 0 300 2 0 true) "small".

(** The simulation after the first tick, and after the second. *)
Definition ex_one_debris : Simulation :=
  mkSimulation [] [ex_deb0 0] (mkDebrisField AREA_WIDTH AREA_HEIGHT 1)
               1 0 0 0 false [].
Definition ex_two_debris : Simulation :=
  mkSimulation [] [ex_deb0 2; ex_deb1] (mkDebrisField AREA_WIDTH AREA_HEIGHT 2)
               2 0 0 0 false [].

(** * Properties *)

(** ** Numbers *)

Lemma Rltb_true_iff (a b : R) : Rltb a b = true <-> a < b.
Proof. unfold Rltb. destruct (Rlt_dec a b); split; intros; congruence || tauto. Qed.

Lemma Rltb_false_iff (a b : R) : Rltb a b = false <-> b <= a.
Proof.
  unfold Rltb. destruct (Rlt_dec a b); split; intros; try congruence; lra.
Qed.

Lemma Rleb_true_iff (a b : R) : Rleb a b = true <-> a <= b.
Proof. unfold Rleb. destruct (Rle_dec a b); split; intros; congruence || tauto. Qed.

Lemma Rleb_false_iff (a b : R) : Rleb a b = false <-> b < a.
Proof.
  unfold Rleb. destruct (Rle_dec a b); split; intros; try congruence; lra.
Qed.

(** Case analysis on every comparison of the goal. *)
Ltac cases_R :=
  repeat match goal with
    | |- context [Rltb ?a ?b] =>
        let H := fresh "Hlt" in
        destruct (Rltb a b) eqn:H;
        [apply Rltb_true_iff in H | apply Rltb_false_iff in H]
    | |- context [Rleb ?a ?b] =>
        let H := fresh "Hle" in
        destruct (Rleb a b) eqn:H;
        [apply Rleb_true_iff in H | apply Rleb_false_iff in H]
    end.

Lemma py_max_Rmax (a b : R) : py_max a b = Rmax a b.
Proof. unfold py_max, Rmax. cases_R; destruct (Rle_dec a b); lra. Qed.

Lemma py_min_Rmin (a b : R) : py_min a b = Rmin a b.
Proof. unfold py_min, Rmin. cases_R; destruct (Rle_dec a b); lra. Qed.

Lemma py_clamp (v : R) : py_max 0.5 (py_min v 5) = clamp v 0.5 5.
Proof. unfold clamp. now rewrite py_max_Rmax, py_min_Rmin. Qed.

Lemma clamp_range (v lo hi : R) : lo <= hi -> lo <= clamp v lo hi <= hi.
Proof.
  intros H. unfold clamp, Rmax, Rmin.
  destruct (Rle_dec v hi); destruct (Rle_dec lo _); lra.
Qed.

Lemma py_mod_range (a m : R) : 0 < m -> 0 <= py_mod a m < m.
Proof.
  intros Hm. unfold py_mod.
  destruct (base_Int_part (a / m)) as [Hlo Hhi].
  assert (Ha : a = m * (a / m)) by (field; lra).
  generalize dependent (IZR (Int_part (a / m))). intros q Hlo Hhi.
  generalize dependent (a / m). intros r Ha Hlo Hhi. subst a. nra.
Qed.

Lemma py_mod_small (a m : R) : 0 <= a < m -> py_mod a m = a.
Proof.
  intros [H0 Hm]. unfold py_mod.
  destruct (base_Int_part (a / m)) as [Hlo Hhi].
  assert (Hr : 0 <= a / m < 1).
  { split.
    - apply Rmult_le_pos; [lra | apply Rlt_le, Rinv_0_lt_compat; lra].
    - apply Rmult_lt_reg_r with m; [lra|]. field_simplify; lra. }
  assert (Hq : Int_part (a / m) = 0%Z).
  { assert (IZR (Int_part (a / m)) < IZR 1) by (simpl; lra).
    assert (IZR (-1) < IZR (Int_part (a / m))) by (simpl; lra).
    apply lt_IZR in H, H1. lia. }
  rewrite Hq. simpl. lra.
Qed.

(** ** The distance and the collision detector *)

Lemma distance_to_summed (a b : Entity) :
  distance_to a b = summed_distance (obj_of a) (obj_of b).
Proof.
  unfold distance_to, Object.distance_to, summed_distance.
  now rewrite !Rsqr_pow2.
Qed.

Lemma distance_to_nonneg (a b : Entity) : 0 <= distance_to a b.
Proof. apply sqrt_pos. Qed.

(** The metric is not the Euclidean one: an entity at (3, 4) is at distance
    10 from itself. *)
Example distance_to_self_3_4 :
  forall n v a act,
    let o := EObject (mkObject n 3 4 v a act) in distance_to o o = 10.
Proof.
  intros. unfold distance_to, Object.distance_to; simpl.
  replace ((3 + 3) * ((3 + 3) * 1) + (4 + 4) * ((4 + 4) * 1)) with (10 * 10) by lra.
  apply sqrt_square. lra.
Qed.

(** C1. For every two entities [a] and [b], [distance_to a b] is the square
    root of [(a.x + b.x)^2 + (a.y + b.y)^2]: the coordinates are summed.  The
    collision check compares this value with the threshold of the pair, and
    the proximity check compares it with the warning distance. *)
Theorem distance_to_sums_coordinates :
  forall a b : Entity,
    distance_to a b
    = sqrt (Rsqr (x (obj_of a) + x (obj_of b)) + Rsqr (y (obj_of a) + y (obj_of b)))
    /\ Detector.check_collision a b
       = match collision_threshold a b with
         | Some r => Rltb (summed_distance (obj_of a) (obj_of b)) r
         | None => false
         end
    /\ forall (s : Satellite) (w : R),
         Detector.check_proximity_warning s b w
         = Rltb (summed_distance (sat_obj s) (obj_of b)) w.
Proof.
  intros a b. split; [apply distance_to_summed|]. split.
  - unfold Detector.check_collision, Detector.SATELLITE_RADIUS.
    rewrite distance_to_summed.
    destruct a, b; simpl; try reflexivity.
    f_equal; lra.
  - intros s w. unfold Detector.check_proximity_warning.
    now rewrite distance_to_summed.
Qed.

(** C10. Two debris never collide, wherever they are; nor does any pair
    with an instance of the base class.  The pairs left are
    satellite-debris, debris-satellite and satellite-satellite. *)
Theorem debris_never_collide :
  forall (d1 d2 : Debris) (o : CelestialObject) (e : Entity),
    Detector.check_collision (EDeb d1) (EDeb d2) = false
    /\ Detector.check_collision (EObject o) e = false
    /\ Detector.check_collision e (EObject o) = false.
Proof.
  intros d1 d2 o e. repeat split; try reflexivity.
  destruct e; reflexivity.
Qed.

(** ** Satellites *)

Lemma update_status_obj (s : Satellite) :
  sat_obj (Sat._update_status s) = sat_obj s.
Proof. unfold Sat._update_status. cases_R; reflexivity. Qed.

Lemma update_status_fuel (s : Satellite) :
  fuel (Sat._update_status s) = Rmax 0 (fuel s).
Proof.
  unfold Sat._update_status, Rmax.
  cases_R; simpl; destruct (Rle_dec 0 (fuel s)); lra.
Qed.

Lemma update_status_fuel_nonneg (s : Satellite) :
  0 <= fuel (Sat._update_status s).
Proof. rewrite update_status_fuel. apply Rmax_l. Qed.

Lemma update_status_by_fuel (s : Satellite) :
  status_by_fuel (Sat._update_status s).
Proof.
  unfold status_by_fuel, Sat._update_status.
  cases_R; simpl; repeat split; intros; try reflexivity; lra.
Qed.


Lemma update_active (s : Satellite) :
  sat_active s = true ->
  Sat.update s
  = Sat._update_status
      (Sat.set_fuel (fuel s - 0.1)
         (mkSatellite (Object.update (sat_obj s)) (fuel s) (status s))).
Proof.
  unfold sat_active, Sat.update, Object.update. intros H. rewrite H.
  reflexivity.
Qed.

Lemma update_inactive (s : Satellite) :
  sat_active s = false -> Sat.update s = s.
Proof.
  destruct s as [[n x0 y0 v a act] f st]. unfold sat_active. simpl.
  now intros ->.
Qed.

Lemma update_keeps_flag (s : Satellite) :
  sat_active (Sat.update s) = sat_active s
  /\ sat_name (Sat.update s) = sat_name s.
Proof.
  destruct (sat_active s) eqn:E.
  - rewrite update_active by exact E. unfold sat_active, sat_name in *.
    rewrite update_status_obj. simpl. unfold Object.update. rewrite E. simpl.
    now split.
  - rewrite update_inactive by exact E. now split.
Qed.

Lemma update_still (n : string) (x0 y0 a f : R) :
  20 <= f - 0.1 ->
  Sat.update (mkSatellite (mkObject n x0 y0 0 a true) f Nominal)
  = mkSatellite (mkObject n x0 y0 0 a true) (f - 0.1) Nominal.
Proof.
  intros H. unfold Sat.update, Object.update. simpl.
  unfold Sat._update_status. simpl.
  assert (H1 : Rleb (f - 0.1) 0 = false) by (apply Rleb_false_iff; lra).
  assert (H2 : Rltb (f - 0.1) 20 = false) by (apply Rltb_false_iff; lra).
  rewrite H1, H2. unfold Sat.set_status. simpl.
  f_equal. f_equal; lra.
Qed.

Lemma deorbit_success (s : Satellite) :
  5 <= fuel s ->
  Sat.deorbit s
  = (true,
     mkSatellite
       (mkObject (name (sat_obj s)) (x (sat_obj s)) (y (sat_obj s))
                 (speed (sat_obj s)) (angle (sat_obj s)) false)
       (fuel s - 5) Deorbited).
Proof.
  intros H. apply Rleb_true_iff in H. unfold Sat.deorbit. now rewrite H.
Qed.

Lemma deorbit_failure (s : Satellite) :
  fuel s < 5 -> Sat.deorbit s = (false, s).
Proof.
  intros H. apply Rleb_false_iff in H. unfold Sat.deorbit. now rewrite H.
Qed.

Lemma deorbit_result (s : Satellite) :
  fst (Sat.deorbit s) = true <-> 5 <= fuel s.
Proof.
  destruct (Rle_dec 5 (fuel s)) as [H | H].
  - rewrite deorbit_success by exact H. simpl. tauto.
  - rewrite deorbit_failure by lra. simpl. split; [discriminate | tauto].
Qed.

(** C3. [deorbit] succeeds exactly when the fuel is at least 5.  On success
    the satellite is inactive and deorbited, with 5 less fuel and every
    other field as before; on failure nothing has changed. *)
Theorem deorbit_succeeds_iff_fuel :
  forall s : Satellite,
    (fst (Sat.deorbit s) = true <-> 5 <= fuel s)
    /\ (5 <= fuel s ->
        Sat.deorbit s
        = (true,
           mkSatellite
             (mkObject (name (sat_obj s)) (x (sat_obj s)) (y (sat_obj s))
                       (speed (sat_obj s)) (angle (sat_obj s)) false)
             (fuel s - 5) Deorbited))
    /\ (fuel s < 5 -> Sat.deorbit s = (false, s)).
Proof.
  intros s. split; [apply deorbit_result|].
  split; [apply deorbit_success | apply deorbit_failure].
Qed.

Lemma deorbit_succeeds_iff_fuel_witness :
  (5 <= fuel (Sat.init "X" 0 0 1 0 100)
   /\ Sat.deorbit (Sat.init "X" 0 0 1 0 100)
      = (true, mkSatellite (mkObject "X" 0 0 1 0 false) (100 - 5) Deorbited))
  /\ (fuel (Sat.init "X" 0 0 1 0 3) < 5
      /\ Sat.deorbit (Sat.init "X" 0 0 1 0 3) = (false, Sat.init "X" 0 0 1 0 3)).
Proof.
  split; split.
  - simpl; lra.
  - apply (proj1 (proj2 (deorbit_succeeds_iff_fuel (Sat.init "X" 0 0 1 0 100)))).
    simpl; lra.
  - simpl; lra.
  - apply (proj2 (proj2 (deorbit_succeeds_iff_fuel (Sat.init "X" 0 0 1 0 3)))).
    simpl; lra.
Defined.

(** C8. [change_speed] does nothing when the fuel is at most 0.  Otherwise
    it sets the speed to the clamped value, takes 1.5 from the fuel and
    recomputes the status: the fuel left is never negative and the status
    is the one of the thresholds.  With fuel 1 and a request of 3 the
    satellite ends with speed 3, fuel 0 and a critical status. *)
Theorem change_speed_spec :
  forall (v : R) (s : Satellite),
    (fuel s <= 0 -> Sat.change_speed v s = s)
    /\ (0 < fuel s ->
        let s' := Sat.change_speed v s in
        s' = Sat._update_status
               (Sat.set_fuel (fuel s - 1.5) (Sat.set_speed (clamp v 0.5 5) s))
        /\ speed (sat_obj s') = clamp v 0.5 5
        /\ fuel s' = Rmax 0 (fuel s - 1.5)
        /\ 0 <= fuel s'
        /\ status_by_fuel s'
        /\ same_position s s'
        /\ angle (sat_obj s') = angle (sat_obj s)
        /\ active (sat_obj s') = active (sat_obj s))
    /\ (fuel s = 1 -> v = 3 ->
        let s' := Sat.change_speed v s in
        speed (sat_obj s') = 3 /\ fuel s' = 0 /\ status s' = Critical).
Proof.
  intros v s.
  assert (Hpos : 0 < fuel s ->
                 let s' := Sat.change_speed v s in
                 s' = Sat._update_status
                        (Sat.set_fuel (fuel s - 1.5)
                                      (Sat.set_speed (clamp v 0.5 5) s))
                 /\ speed (sat_obj s') = clamp v 0.5 5
                 /\ fuel s' = Rmax 0 (fuel s - 1.5)
                 /\ 0 <= fuel s'
                 /\ status_by_fuel s'
                 /\ same_position s s'
                 /\ angle (sat_obj s') = angle (sat_obj s)
                 /\ active (sat_obj s') = active (sat_obj s)).
  2: split; [|split; [exact Hpos|]].
  - intros H. simpl.
    assert (E : Sat.change_speed v s
                = Sat._update_status
                    (Sat.set_fuel (fuel s - 1.5) (Sat.set_speed (clamp v 0.5 5) s))).
    { unfold Sat.change_speed. apply Rleb_false_iff in H. rewrite H.
      now rewrite py_clamp. }
    rewrite E. split; [reflexivity|].
    split; [now rewrite update_status_obj|].
    split; [now rewrite update_status_fuel|].
    split; [apply update_status_fuel_nonneg|].
    split; [apply update_status_by_fuel|].
    unfold same_position. rewrite !update_status_obj. simpl.
    repeat split; reflexivity.
  - intros H. unfold Sat.change_speed.
    apply Rleb_true_iff in H. now rewrite H.
  - intros Hf Hv. subst v. simpl.
    destruct Hpos as (_ & Hspeed & Hfuel & _ & (_ & _ & Hcrit) & _); [lra|].
    assert (Hzero : fuel (Sat.change_speed 3 s) = 0).
    { rewrite Hfuel, Hf. unfold Rmax. destruct (Rle_dec 0 (1 - 1.5)); lra. }
    split; [|split; [exact Hzero | exact (Hcrit Hzero)]].
    rewrite Hspeed. unfold clamp, Rmax, Rmin.
    destruct (Rle_dec 3 5); destruct (Rle_dec 0.5 _); lra.
Qed.

Lemma change_speed_spec_witness :
  (fuel (Sat.init "S" 0 0 1 0 0) <= 0
   /\ Sat.change_speed 3 (Sat.init "S" 0 0 1 0 0) = Sat.init "S" 0 0 1 0 0)
  /\ (0 < fuel (Sat.init "S" 0 0 1 0 50)
      /\ speed (sat_obj (Sat.change_speed 9 (Sat.init "S" 0 0 1 0 50)))
         = clamp 9 0.5 5)
  /\ (fuel (Sat.init "S" 0 0 1 0 1) = 1
      /\ fuel (Sat.change_speed 3 (Sat.init "S" 0 0 1 0 1)) = 0
      /\ status (Sat.change_speed 3 (Sat.init "S" 0 0 1 0 1)) = Critical).
Proof.
  split; [|split].
  - split; [simpl; lra|].
    apply (proj1 (change_speed_spec 3 (Sat.init "S" 0 0 1 0 0))). simpl; lra.
  - split; [simpl; lra|].
    apply (proj1 (proj2 (change_speed_spec 9 (Sat.init "S" 0 0 1 0 50)))).
    simpl; lra.
  - split; [reflexivity|].
    apply (proj2 (proj2 (change_speed_spec 3 (Sat.init "S" 0 0 1 0 1))));
      reflexivity.
Defined.

(** What one call does to the fuel and the status: nothing, a
    recomputation by [_update_status], or a successful [deorbit]. *)
Lemma sat_call_cases (c : SatCall) (s : Satellite) :
  (fuel (sat_call c s) = fuel s /\ status (sat_call c s) = status s)
  \/ (0 <= fuel (sat_call c s) /\ status_by_fuel (sat_call c s))
  \/ (5 <= fuel s /\ fuel (sat_call c s) = fuel s - 5
      /\ status (sat_call c s) = Deorbited).
Proof.
  destruct c; simpl.
  - unfold Sat.update. simpl. destruct (active (Object.update (sat_obj s))).
    + right; left. split;
        [apply update_status_fuel_nonneg | apply update_status_by_fuel].
    + left. split; reflexivity.
  - unfold Sat.change_angle. destruct (Rleb (fuel s) 0).
    + left. split; reflexivity.
    + right; left. split;
        [apply update_status_fuel_nonneg | apply update_status_by_fuel].
  - unfold Sat.change_speed. destruct (Rleb (fuel s) 0).
    + left. split; reflexivity.
    + right; left. split;
        [apply update_status_fuel_nonneg | apply update_status_by_fuel].
  - unfold Sat.deorbit. destruct (Rleb 5 (fuel s)) eqn:H; simpl.
    + right; right. apply Rleb_true_iff in H. repeat split; trivial.
    + left. split; reflexivity.
  - left. split; reflexivity.
Qed.

Section FuelInvariant.

Variable f0 : R.
Hypothesis f0_nonneg : 0 <= f0.

Lemma inv_init (n : string) (x0 y0 v a : R) :
  fuel_invariant f0 (Sat.init n x0 y0 v a f0).
Proof. split; simpl; [exact f0_nonneg | right; right; split; reflexivity]. Qed.

Lemma inv_call (c : SatCall) (s : Satellite) :
  fuel_invariant f0 s -> fuel_invariant f0 (sat_call c s).
Proof.
  intros [Hf Hs].
  destruct (sat_call_cases c s) as [[Ef Es] | [[Hf' Hs'] | (H5 & Ef & Es)]].
  - split; [lra|]. rewrite Ef, Es.
    destruct Hs as [Hs | [Hs | Hs]]; [now left | | now right; right].
    right; left. unfold status_by_fuel in *. now rewrite Ef, Es.
  - split; [assumption | now right; left].
  - split; [lra | now left].
Qed.

Lemma inv_run (cs : list SatCall) (s : Satellite) :
  fuel_invariant f0 s -> fuel_invariant f0 (sat_run cs s).
Proof.
  revert s. induction cs as [|c cs IH]; intros s Hs; simpl; [exact Hs|].
  apply IH, inv_call, Hs.
Qed.

End FuelInvariant.

(** C2, as the claim states it, fails: a satellite constructed with fuel 0
    is nominal, and [change_angle], which does nothing without fuel, leaves
    it nominal although the thresholds give critical. *)
Lemma constructed_status_ignores_fuel :
  let s0 := Sat.init "S" 0 0 1 0 0 in
  let s := sat_run [CallChangeAngle 90] s0 in
  0 <= fuel s0
  /\ ~ (0 <= fuel s /\ (status s <> Deorbited -> status_by_fuel s)).
Proof.
  simpl. split; [lra|].
  assert (E : Sat.change_angle 90 (Sat.init "S" 0 0 1 0 0) = Sat.init "S" 0 0 1 0 0).
  { unfold Sat.change_angle.
    assert (H : Rleb (fuel (Sat.init "S" 0 0 1 0 0)) 0 = true)
      by (apply Rleb_true_iff; simpl; lra).
    now rewrite H. }
  rewrite E. simpl. intros [_ H].
  assert (Hc : Nominal = Critical) by (apply H; [discriminate | reflexivity]).
  discriminate Hc.
Qed.

(** C2, amended.  For a satellite constructed with fuel at least 0, after
    any sequence of calls the fuel is at least 0, and a status other than
    deorbited is the one of the thresholds, unless it is still the nominal
    status of the constructor with the fuel of the constructor, below 20:
    no call has recomputed the status yet. *)
Theorem fuel_nonneg_and_status_by_fuel :
  forall (n : string) (x0 y0 v a f : R) (cs : list SatCall),
    0 <= f ->
    let s := sat_run cs (Sat.init n x0 y0 v a f) in
    0 <= fuel s
    /\ (status s <> Deorbited ->
        status_by_fuel s \/ (status s = Nominal /\ fuel s = f /\ f < 20)).
Proof.
  intros n x0 y0 v a f cs Hf s.
  destruct (inv_run f cs _ (inv_init f Hf n x0 y0 v a)) as [H0 Hs].
  fold s in H0, Hs. split; [exact H0|]. intros Hnd.
  destruct Hs as [Hs | [Hs | [Hn Ef]]]; [contradiction | now left |].
  destruct (Rlt_dec f 20) as [Hlt | Hge]; [now right|].
  left. unfold status_by_fuel. rewrite Hn, Ef.
  repeat split; intros; try reflexivity; exfalso; lra.
Qed.

Lemma fuel_nonneg_and_status_by_fuel_witness :
  0 <= 60
  /\ 0 <= fuel (sat_run [CallUpdate; CallChangeAngle 90; CallDeorbit]
                        (Sat.init "Hubble" 500 150 1 180 60)).
Proof.
  split; [lra|].
  apply (fuel_nonneg_and_status_by_fuel "Hubble" 500 150 1 180 60
           [CallUpdate; CallChangeAngle 90; CallDeorbit]).
  lra.
Defined.






(** ** Headings *)

Lemma uniform_range (a b u : R) :
  a <= b -> unit_draw u -> a <= uniform a b u <= b.
Proof. unfold uniform, unit_draw. intros Hab [H0 H1]. nra. Qed.

Lemma sat_call_keeps_angle (c : SatCall) (s : Satellite) :
  (forall a, c <> CallChangeAngle a) ->
  angle (sat_obj (sat_call c s)) = angle (sat_obj s).
Proof.
  intros Hc. destruct c; simpl.
  - unfold Sat.update. simpl.
    destruct (active (Object.update (sat_obj s))) eqn:E.
    + rewrite update_status_obj. simpl. unfold Object.update.
      destruct (negb (active (sat_obj s))); reflexivity.
    + simpl. unfold Object.update.
      destruct (negb (active (sat_obj s))); reflexivity.
  - now contradiction (Hc new_angle).
  - unfold Sat.change_speed. destruct (Rleb (fuel s) 0); [reflexivity|].
    now rewrite update_status_obj.
  - unfold Sat.deorbit. destruct (Rleb 5 (fuel s)); reflexivity.
  - reflexivity.
Qed.

Lemma change_angle_angle (a : R) (s : Satellite) :
  0 < fuel s -> angle (sat_obj (Sat.change_angle a s)) = py_mod a 360.
Proof.
  intros H. apply Rleb_false_iff in H.
  unfold Sat.change_angle. rewrite H. now rewrite update_status_obj.
Qed.

Lemma change_angle_within_turn (a : R) (s : Satellite) :
  0 < fuel s -> angle_within_turn (sat_obj (Sat.change_angle a s)).
Proof.
  intros H. unfold angle_within_turn. rewrite change_angle_angle by exact H.
  pose proof (py_mod_range a 360 ltac:(lra)). lra.
Qed.

Lemma change_angle_in_range (a : R) (s : Satellite) :
  0 < fuel s -> 0 <= a < 360 -> angle (sat_obj (Sat.change_angle a s)) = a.
Proof.
  intros H Ha. rewrite change_angle_angle by exact H. now apply py_mod_small.
Qed.

(** C5, as the claim states it, fails: the constructor stores the angle it
    is given, and the generator draws the heading of a debris of the bottom
    edge between -30 and 30. *)
Lemma generated_heading_can_be_negative :
  let g := mkGenDraws SideBottom 0 0 0 0 0 in
  let d := fst (Field.generate g (Field.init AREA_WIDTH AREA_HEIGHT)) in
  valid_gen g
  /\ angle (deb_obj d) = -30
  /\ ~ angle_normalized (deb_obj d)
  /\ ~ angle_normalized (sat_obj (Sat.init "S" 0 0 1 400 100)).
Proof.
  simpl. unfold valid_gen, unit_draw, angle_normalized, uniform. simpl.
  repeat split; try lra; lia.
Qed.

(** C5, amended.  After every [change_angle] that takes effect the heading
    lies in [[0, 360]], and it is the request itself when the request lies
    in [[0, 360)]; every call on a satellite and every update of a debris
    keeps a heading that lies in [[0, 360]].  The constructors store the
    heading they are given, and the generator draws it between -45 and 225,
    in the range of the edge. *)
Theorem heading_within_turn_after_change_angle :
  forall (s : Satellite) (d : Debris) (c : SatCall) (a : R)
         (g : GenDraws) (f : DebrisField),
    (0 < fuel s ->
     angle_within_turn (sat_obj (Sat.change_angle a s))
     /\ (0 <= a < 360 -> angle (sat_obj (Sat.change_angle a s)) = a))
    /\ (angle_within_turn (sat_obj s) ->
        angle_within_turn (sat_obj (sat_call c s)))
    /\ angle (deb_obj (Deb.update d)) = angle (deb_obj d)
    /\ angle (deb_obj (Deb.deactivate d)) = angle (deb_obj d)
    /\ (forall n x0 y0 v f0 sz,
          angle (sat_obj (Sat.init n x0 y0 v a f0)) = a
          /\ angle (deb_obj (Deb.init n x0 y0 v a sz)) = a)
    /\ (valid_gen g ->
        let h := angle (deb_obj (fst (Field.generate g f))) in
        -45 <= h <= 225
        /\ match g_side g with
           | SideTop => 150 <= h <= 210
           | SideBottom => -30 <= h <= 30
           | SideLeft => -45 <= h <= 45
           | SideRight => 135 <= h <= 225
           end).
Proof.
  intros s d c a g f. split.
  { intros H. split; [now apply change_angle_within_turn|].
    now apply change_angle_in_range. }
  split.
  { intros Hn.
    destruct c as [| a' | | |];
      try (unfold angle_within_turn;
           rewrite sat_call_keeps_angle by discriminate; exact Hn).
    simpl. destruct (Rle_dec (fuel s) 0) as [E | E].
    - apply Rleb_true_iff in E. unfold Sat.change_angle. now rewrite E.
    - apply change_angle_within_turn. lra. }
  split.
  { unfold Deb.update, Object.update. simpl.
    destruct (negb (active (deb_obj d))); reflexivity. }
  split; [reflexivity|]. split; [intros; split; reflexivity|].
  intros (_ & Ha & _). unfold Field.generate.
  destruct (g_side g); simpl.
  - pose proof (uniform_range 150 210 _ ltac:(lra) Ha). lra.
  - pose proof (uniform_range (-30) 30 _ ltac:(lra) Ha). lra.
  - pose proof (uniform_range (-45) 45 _ ltac:(lra) Ha). lra.
  - pose proof (uniform_range 135 225 _ ltac:(lra) Ha). lra.
Qed.

Lemma heading_within_turn_after_change_angle_witness :
  (0 < fuel (Sat.init "ISS" 200 300 1.5 45 80)
   /\ angle_within_turn
        (sat_obj (Sat.change_angle 725 (Sat.init "ISS" 200 300 1.5 45 80)))
   /\ angle (sat_obj (Sat.change_angle 270 (Sat.init "ISS" 200 300 1.5 45 80)))
      = 270)
  /\ (angle_within_turn (sat_obj (Sat.init "ISS" 200 300 1.5 45 80))
      /\ angle_within_turn
           (sat_obj (sat_call CallUpdate (Sat.init "ISS" 200 300 1.5 45 80))))
  /\ (valid_gen (mkGenDraws SideLeft 0.5 0.25 0.7 0.5 3)
      /\ -45 <= angle (deb_obj (fst (Field.generate
                                       (mkGenDraws SideLeft 0.5 0.25 0.7 0.5 3)
                                       (Field.init AREA_WIDTH AREA_HEIGHT))))
         <= 225).
Proof.
  assert (Hv : valid_gen (mkGenDraws SideLeft 0.5 0.25 0.7 0.5 3)).
  { unfold valid_gen, unit_draw. simpl. repeat split; try lra; lia. }
  assert (Hf : 0 < fuel (Sat.init "ISS" 200 300 1.5 45 80)) by (simpl; lra).
  assert (Hn : angle_within_turn (sat_obj (Sat.init "ISS" 200 300 1.5 45 80)))
    by (unfold angle_within_turn; simpl; lra).
  pose proof (heading_within_turn_after_change_angle
                (Sat.init "ISS" 200 300 1.5 45 80)
                (Deb.init "D" 0 0 1 0 "small") CallUpdate 725
                (mkGenDraws SideLeft 0.5 0.25 0.7 0.5 3)
                (Field.init AREA_WIDTH AREA_HEIGHT))
    as (H725 & Hkeep & _ & _ & _ & Hgen).
  pose proof (heading_within_turn_after_change_angle
                (Sat.init "ISS" 200 300 1.5 45 80)
                (Deb.init "D" 0 0 1 0 "small") CallUpdate 270
                (mkGenDraws SideLeft 0.5 0.25 0.7 0.5 3)
                (Field.init AREA_WIDTH AREA_HEIGHT))
    as (H270 & _).
  split; [|split].
  - split; [exact Hf|]. split; [apply (proj1 (H725 Hf))|].
    apply (proj2 (H270 Hf)). lra.
  - split; [exact Hn | exact (Hkeep Hn)].
  - split; [exact Hv | apply (proj1 (Hgen Hv))].
Defined.

(** ** The simulation: what each part of a tick writes *)

Lemma foldl_keeps {A B C : Type} (g : A -> C) (f : A -> B -> A) (l : list B) :
  (forall a b, g (f a b) = g a) -> forall a, g (foldl f a l) = g a.
Proof.
  intros Hf. induction l as [|b l IH]; intros a; simpl; [reflexivity|].
  now rewrite IH.
Qed.

Lemma sat_debris_step_frame (i j : nat) (s : Simulation) :
  frame (Sim.sat_debris_step i j s) = frame s.
Proof.
  unfold Sim.sat_debris_step.
  destruct (satellites s !! i), (debris_list s !! j); try reflexivity.
  destruct (Detector.check_collision _ _); [reflexivity|].
  destruct (Detector.check_proximity_warning _ _ _); reflexivity.
Qed.

Lemma sat_pair_step_frame (snap : list nat) (i j : nat) (s : Simulation) :
  frame (Sim.sat_pair_step snap i j s) = frame s.
Proof.
  unfold Sim.sat_pair_step.
  destruct (snap !! i) as [a|], (snap !! j) as [b|]; try reflexivity.
  destruct (satellites s !! a), (satellites s !! b); try reflexivity.
  destruct (Detector.check_collision _ _); reflexivity.
Qed.

Lemma check_all_collisions_frame (s : Simulation) :
  frame (Sim._check_all_collisions s) = frame s.
Proof.
  unfold Sim._check_all_collisions, Sim.sat_pair_loop, Sim.sat_debris_loop.
  rewrite foldl_keeps.
  - apply foldl_keeps. intros a i. apply foldl_keeps. intros b j.
    apply sat_debris_step_frame.
  - intros a i. apply foldl_keeps. intros b j. apply sat_pair_step_frame.
Qed.

Lemma advance_counters (rnd : TickDraws) (s : Simulation) :
  tick_count (Sim.advance rnd s) = S (tick_count s)
  /\ score (Sim.advance rnd s) = score s
  /\ deorbited (Sim.advance rnd s) = deorbited s
  /\ game_over (Sim.advance rnd s) = game_over s.
Proof.
  unfold Sim.advance. destruct (Rltb _ _); [|repeat split].
  destruct (Field.generate _ _). repeat split.
Qed.

(** The state just before [tick] settles the score. *)
Lemma tick_frame (rnd : TickDraws) (s : Simulation) :
  let s1 := Sim._cleanup_out_of_bounds (Sim._check_all_collisions (Sim.advance rnd s)) in
  tick_count s1 = S (tick_count s)
  /\ deorbited s1 = deorbited s
  /\ game_over s1 = game_over s.
Proof.
  simpl.
  pose proof (check_all_collisions_frame (Sim.advance rnd s)) as H.
  unfold frame in H. injection H as _ Ht _ Hd Hg.
  destruct (advance_counters rnd s) as (At & _ & Ad & Ag).
  unfold Sim._cleanup_out_of_bounds. simpl.
  rewrite Ht, Hd, Hg. auto.
Qed.

Lemma settle_game_over (s : Simulation) :
  game_over s = false ->
  game_over (Sim.settle s) = true <-> all_lost (Sim.settle s).
Proof.
  destruct s as [sats debs fld tc sc co de go ev]. simpl. intros ->.
  unfold all_lost, Sim.settle, active_count. simpl.
  destruct (Nat.eqb_spec (length (List.filter sat_active sats)) 0);
    destruct (Nat.ltb_spec 10 tc); simpl;
    split; intros; try discriminate; try reflexivity; lia.
Qed.

Lemma tick_when_over (rnd : TickDraws) (s : Simulation) :
  game_over s = true -> Sim.tick rnd s = s.
Proof. intros H. unfold Sim.tick. now rewrite H. Qed.

Lemma tick_when_live (rnd : TickDraws) (s : Simulation) :
  game_over s = false ->
  tick_count (Sim.tick rnd s) = S (tick_count s)
  /\ (game_over (Sim.tick rnd s) = true <-> all_lost (Sim.tick rnd s)).
Proof.
  intros H. unfold Sim.tick. rewrite H.
  destruct (tick_frame rnd s) as (Ht & _ & Hg). cbv zeta in Ht, Hg.
  split; [exact Ht|].
  apply settle_game_over. now rewrite Hg.
Qed.

Lemma deorbit_satellite_counters (n : string) (s : Simulation) :
  let r := Sim.deorbit_satellite n s in
  tick_count (snd r) = tick_count s
  /\ deorbited (snd r) = deorbited s
  /\ game_over (snd r) = game_over s
  /\ collisions (snd r) = (if fst r then collisions s + 1 else collisions s)%nat.
Proof.
  unfold Sim.deorbit_satellite.
  destruct (Sim.deorbit_scan n (satellites s)) as [[[sat [|]] sats]|];
    simpl; repeat split.
Qed.

(** Only [tick] writes the tick counter and the game-over flag, and nothing
    writes the deorbit counter. *)
Lemma step_counters (o : Op) (s : Simulation) :
  deorbited (step o s) = deorbited s
  /\ ((forall rnd, o <> OpTick rnd) ->
      tick_count (step o s) = tick_count s /\ game_over (step o s) = game_over s).
Proof.
  destruct o as [rnd | sat | | n | sel v | sel v | i c]; simpl.
  - split; [|intros H; now contradiction (H rnd)].
    unfold Sim.tick. destruct (game_over s); [reflexivity|].
    apply (tick_frame rnd s).
  - split; [reflexivity | intros _; split; reflexivity].
  - split; [reflexivity | intros _; split; reflexivity].
  - destruct (deorbit_satellite_counters n s) as (Ht & Hd & Hg & _).
    split; [exact Hd | intros _; split; assumption].
  - unfold Window._change_angle. destruct (Window.is_selected sel);
      (split; [reflexivity | intros _; split; reflexivity]).
  - unfold Window._change_speed. destruct (Window.is_selected sel);
      (split; [reflexivity | intros _; split; reflexivity]).
  - split; [reflexivity | intros _; split; reflexivity].
Qed.

Lemma run_deorbited (ops : list Op) (s : Simulation) :
  deorbited (run ops s) = deorbited s.
Proof.
  unfold run. apply (foldl_keeps deorbited). intros a o.
  apply (step_counters o a).
Qed.

(** ** The deorbit counter *)

(** C9. No operation writes the deorbit counter: in every reachable state
    [get_stats] reports 0 for it.  A successful [deorbit_satellite] adds 1
    to the collision counter instead. *)
Theorem deorbit_counter_is_never_incremented :
  forall (ops : list Op) (o : Op) (s : Simulation) (n : string),
    deorbited (step o s) = deorbited s
    /\ st_desorbites (Sim.get_stats (run ops Sim.init)) = 0%nat
    /\ (fst (Sim.deorbit_satellite n s) = true ->
        collisions (snd (Sim.deorbit_satellite n s)) = (collisions s + 1)%nat
        /\ deorbited (snd (Sim.deorbit_satellite n s)) = deorbited s).
Proof.
  intros ops o s n. split; [apply (step_counters o s)|]. split.
  - simpl. now rewrite run_deorbited.
  - intros H.
    destruct (deorbit_satellite_counters n s) as (_ & Hd & _ & Hc).
    cbv zeta in Hd, Hc. rewrite H in Hc. now split.
Qed.

Lemma deorbit_counter_is_never_incremented_witness :
  let s := Sim.add_satellite (Sat.init "X" 0 0 1 0 100) Sim.init in
  fst (Sim.deorbit_satellite "X" s) = true
  /\ collisions (snd (Sim.deorbit_satellite "X" s)) = 1%nat
  /\ deorbited (snd (Sim.deorbit_satellite "X" s)) = 0%nat.
Proof.
  cbv zeta.
  assert (H : fst (Sim.deorbit_satellite "X"
                     (Sim.add_satellite (Sat.init "X" 0 0 1 0 100) Sim.init))
              = true).
  { unfold Sim.deorbit_satellite. simpl.
    rewrite deorbit_success by (simpl; lra). reflexivity. }
  split; [exact H|].
  apply (proj2 (proj2 (deorbit_counter_is_never_incremented
                         [] OpPopEvents
                         (Sim.add_satellite (Sat.init "X" 0 0 1 0 100) Sim.init)
                         "X")) H).
Defined.

(** ** Game over *)

(** For an operation other than a tick, recall that it keeps the tick
    counter and the flag. *)
Ltac not_a_tick o s Ht Hg :=
  destruct (proj2 (step_counters o s)) as [Ht Hg]; [intros ?; discriminate|].

Lemma run_cons (o : Op) (ops : list Op) (s : Simulation) :
  run (o :: ops) s = run ops (step o s).
Proof. reflexivity. Qed.

Lemma step_game_over_stays (o : Op) (s : Simulation) :
  game_over s = true -> game_over (step o s) = true.
Proof.
  intros H. destruct o as [rnd | sat | | n | sel v | sel v | i c];
    [simpl; now rewrite tick_when_over | ..];
    match goal with
    | |- game_over (step ?o s) = true => not_a_tick o s Ht Hg; congruence
    end.
Qed.

Lemma run_game_over_stays (ops : list Op) (s : Simulation) :
  game_over s = true -> game_over (run ops s) = true.
Proof.
  revert s. induction ops as [|o ops IH]; intros s H; [exact H|].
  rewrite run_cons. apply IH, step_game_over_stays, H.
Qed.

(** The flag is raised by a tick that ends with every satellite lost. *)
Lemma step_raises_game_over (o : Op) (s : Simulation) :
  game_over s = false -> game_over (step o s) = true ->
  exists rnd, o = OpTick rnd /\ all_lost (step o s).
Proof.
  intros H0 H1. destruct o as [rnd | sat | | n | sel v | sel v | i c];
    [exists rnd; split; [reflexivity|]; apply (tick_when_live rnd s H0), H1
    | ..];
    match type of H1 with
    | game_over (step ?o s) = true => not_a_tick o s Ht Hg; congruence
    end.
Qed.

Lemma tick_all_lost_is_over (rnd : TickDraws) (s : Simulation) :
  all_lost (Sim.tick rnd s) -> game_over (Sim.tick rnd s) = true.
Proof.
  intros H. destruct (game_over s) eqn:E.
  - now rewrite tick_when_over.
  - now apply (tick_when_live rnd s E).
Qed.

Lemma run_game_over_iff (ops : list Op) (s : Simulation) :
  game_over s = false ->
  game_over (run ops s) = true <->
  exists k rnd,
    ops !! k = Some (OpTick rnd) /\ all_lost (run (take (S k) ops) s).
Proof.
  revert s. induction ops as [|o ops IH]; intros s H0.
  - simpl. split; [congruence | intros (k & rnd & Hk & _); discriminate].
  - rewrite run_cons. split.
    + intros H1. destruct (game_over (step o s)) eqn:E.
      * destruct (step_raises_game_over o s H0 E) as (rnd & -> & Hl).
        exists 0%nat, rnd. split; [reflexivity | exact Hl].
      * apply (IH _ E) in H1. destruct H1 as (k & rnd & Hk & Hl).
        exists (S k), rnd. split; [exact Hk | exact Hl].
    + intros (k & rnd & Hk & Hl). destruct k as [|k].
      * simpl in Hk. injection Hk as ->.
        apply run_game_over_stays. apply tick_all_lost_is_over. exact Hl.
      * destruct (game_over (step o s)) eqn:E;
          [now apply run_game_over_stays|].
        apply (IH _ E). exists k, rnd. split; [exact Hk | exact Hl].
Qed.

Lemma reachable_grace (s : Simulation) :
  reachable s -> game_over s = true -> (10 < tick_count s)%nat.
Proof.
  intros [ops ->] H.
  apply run_game_over_iff in H; [|reflexivity].
  destruct H as (k & rnd & _ & _ & Hl).
  assert (Hmono : forall ops' s', (tick_count s' <= tick_count (run ops' s'))%nat).
  { induction ops' as [|o ops' IH]; intros s'; [reflexivity|].
    rewrite run_cons. etransitivity; [|apply IH].
    destruct o as [rnd' | sat | | n | sel v | sel v | i c];
      [simpl; destruct (game_over s') eqn:E;
       [now rewrite tick_when_over
       | rewrite (proj1 (tick_when_live rnd' s' E)); lia]
      | ..];
      match goal with
      | |- (_ <= tick_count (step ?o s'))%nat => not_a_tick o s' Ht Hg; lia
      end. }
  rewrite <- (take_drop (S k) ops). unfold run at 1. rewrite foldl_app.
  fold (run (take (S k) ops) Sim.init).
  fold (run (drop (S k) ops) (run (take (S k) ops) Sim.init)).
  specialize (Hmono (drop (S k) ops) (run (take (S k) ops) Sim.init)). lia.
Qed.

Lemma spawn_chance_le (ticks : nat) : Sim.spawn_chance ticks <= 0.3.
Proof. unfold Sim.spawn_chance. rewrite py_min_Rmin. apply Rmin_r. Qed.

(** A tick of a simulation without satellite or debris that spawns
    nothing. *)
Lemma tick_idle (r : R) (g : GenDraws) (fld : DebrisField)
    (tc sc co de : nat) (ev : list string) :
  0.3 <= r ->
  Sim.tick (mkTickDraws r g) (mkSimulation [] [] fld tc sc co de false ev)
  = mkSimulation [] [] fld (S tc) sc co de (Nat.ltb 10 (S tc)) ev.
Proof.
  intros Hr. unfold Sim.tick, Sim.advance. simpl.
  assert (H : Rltb r (Sim.spawn_chance (S tc)) = false).
  { apply Rltb_false_iff. pose proof (spawn_chance_le (S tc)). lra. }
  rewrite H. unfold Sim.settle, active_count. simpl.
  rewrite Nat.add_0_r. now destruct (Nat.ltb 10 (S tc)).
Qed.

(** Every satellite lost: what [len(active_sats) == 0] says of the flags. *)
Lemma no_active_iff (l : list Satellite) :
  length (List.filter sat_active l) = 0%nat
  <-> forall sat, In sat l -> sat_active sat = false.
Proof.
  induction l as [|a l IH]; simpl; [split; [intros _ sat [] | reflexivity]|].
  destruct (sat_active a) eqn:E; simpl.
  - split; [discriminate|]. intros H.
    specialize (H a (or_introl eq_refl)). congruence.
  - rewrite IH. split.
    + intros H sat [<- | Hin]; [exact E | now apply H].
    + intros H sat Hin. apply H. now right.
Qed.

Lemma all_lost_iff (s : Simulation) :
  all_lost s <->
  (forall sat, In sat (satellites s) -> sat_active sat = false)
  /\ (10 < tick_count s)%nat.
Proof. unfold all_lost, active_count. now rewrite no_active_iff. Qed.

(** The collision pass has nothing to do without satellites, and with one
    satellite and no debris. *)
Lemma pass_quiet (s : Simulation) :
  satellites s = [] \/ (exists sat, satellites s = [sat] /\ debris_list s = []) ->
  Sim._check_all_collisions s = s.
Proof.
  unfold Sim._check_all_collisions, Sim.sat_pair_loop, Sim.sat_debris_loop.
  intros [E | (sat & E & Ed)]; rewrite E.
  - reflexivity.
  - rewrite Ed. unfold positions. simpl. destruct (sat_active sat); reflexivity.
Qed.

(** A tick of a simulation whose only satellite is inactive, without
    debris, that spawns nothing. *)
Lemma tick_lost (r : R) (g : GenDraws) (sat : Satellite) (fld : DebrisField)
    (tc sc co de : nat) (ev : list string) :
  0.3 <= r -> sat_active sat = false ->
  Sim.tick (mkTickDraws r g) (mkSimulation [sat] [] fld tc sc co de false ev)
  = mkSimulation [sat] [] fld (S tc) sc co de (Nat.ltb 10 (S tc)) ev.
Proof.
  intros Hr Ha. unfold Sim.tick, Sim.advance. simpl.
  assert (H : Rltb r (Sim.spawn_chance (S tc)) = false).
  { apply Rltb_false_iff. pose proof (spawn_chance_le (S tc)). lra. }
  rewrite H, (update_inactive sat Ha).
  rewrite pass_quiet by (right; now exists sat).
  unfold Sim.settle, active_count. simpl. rewrite Ha. simpl.
  rewrite Nat.add_0_r. now destruct (Nat.ltb 10 (S tc)).
Qed.

(** A tick of a simulation whose only satellite is active and still, with
    fuel to spare, without debris, that spawns nothing. *)
Lemma tick_alive (r : R) (g : GenDraws) (n : string) (x0 y0 a f : R)
    (fld : DebrisField) (tc sc co de : nat) (ev : list string) :
  0.3 <= r -> 20 <= f - 0.1 ->
  Sim.tick (mkTickDraws r g)
           (mkSimulation [mkSatellite (mkObject n x0 y0 0 a true) f Nominal] []
                         fld tc sc co de false ev)
  = mkSimulation [mkSatellite (mkObject n x0 y0 0 a true) (f - 0.1) Nominal] []
                 fld (S tc) (sc + 1) co de false ev.
Proof.
  intros Hr Hf. unfold Sim.tick, Sim.advance. simpl.
  assert (H : Rltb r (Sim.spawn_chance (S tc)) = false).
  { apply Rltb_false_iff. pose proof (spawn_chance_le (S tc)). lra. }
  rewrite H, (update_still n x0 y0 a f Hf).
  rewrite pass_quiet by (right; now eexists).
  reflexivity.
Qed.

Lemma ex_lost_start :
  run [OpAddSatellite ex_sat_x; OpDeorbitSatellite "X"] Sim.init = ex_lost 0.
Proof.
  unfold run. cbn [foldl step]. unfold Sim.deorbit_satellite. simpl.
  rewrite deorbit_success by (simpl; lra). reflexivity.
Qed.

Lemma ex_lost_run_state (n : nat) :
  (n <= 11)%nat -> run (ex_lost_run n) Sim.init = ex_lost n.
Proof.
  unfold ex_lost_run, run. rewrite foldl_app.
  fold (run [OpAddSatellite ex_sat_x; OpDeorbitSatellite "X"] Sim.init).
  rewrite ex_lost_start.
  induction n as [|n IH]; intros Hn; [reflexivity|].
  rewrite replicate_S_end, foldl_app, IH by lia.
  unfold ex_lost, ex_idle. cbn [foldl step].
  assert (E : Nat.ltb 10 n = false) by (apply Nat.ltb_ge; lia).
  rewrite E. now rewrite tick_lost by (lra || reflexivity).
Qed.

Lemma ex_alive_run_state :
  run (ex_alive_run 10) Sim.init
  = mkSimulation
      [mkSatellite (mkObject "X" 0 0 0 0 true)
                   (100 - 0.1 - 0.1 - 0.1 - 0.1 - 0.1 - 0.1 - 0.1 - 0.1 - 0.1 - 0.1)
                   Nominal]
      [] (Field.init AREA_WIDTH AREA_HEIGHT) 10 10 0 0 false [].
Proof.
  unfold ex_alive_run, run, ex_idle, ex_sat_x, Sat.init, Object.init, Sim.init.
  cbn [replicate foldl step]. unfold Sim.add_satellite.
  cbn [satellites debris_list debris_field tick_count score collisions
       deorbited game_over events app].
  rewrite !tick_alive by lra. reflexivity.
Qed.

(** C6. A tick of a simulation that is over changes nothing.  A tick of a
    simulation that is not over adds 1 to the tick counter and raises the
    flag exactly when, at its end, every satellite of the list is inactive
    and the tick counter is above 10.  Hence, along any run, the flag stays
    raised once it is raised, it is raised exactly when some tick of the
    run has ended in that condition, and no reachable state has it raised
    with 10 ticks or fewer. *)
Theorem game_over_at_first_lost_tick :
  forall (s : Simulation) (rnd : TickDraws) (ops : list Op),
    (game_over s = true -> Sim.tick rnd s = s)
    /\ (game_over s = false ->
        tick_count (Sim.tick rnd s) = S (tick_count s)
        /\ (game_over (Sim.tick rnd s) = true <->
            (forall sat, In sat (satellites (Sim.tick rnd s)) ->
                         sat_active sat = false)
            /\ (10 < tick_count (Sim.tick rnd s))%nat))
    /\ (game_over s = true -> game_over (run ops s) = true)
    /\ (game_over s = false ->
        game_over (run ops s) = true <->
        exists k rnd',
          ops !! k = Some (OpTick rnd')
          /\ (forall sat, In sat (satellites (run (take (S k) ops) s)) ->
                          sat_active sat = false)
          /\ (10 < tick_count (run (take (S k) ops) s))%nat)
    /\ (reachable s -> game_over s = true -> (10 < tick_count s)%nat).
Proof.
  intros s rnd ops.
  split; [apply tick_when_over|]. split.
  { intros H. destruct (tick_when_live rnd s H) as [Ht Hiff].
    split; [exact Ht|]. now rewrite <- all_lost_iff. }
  split; [apply run_game_over_stays|]. split; [|apply reachable_grace].
  intros H. rewrite (run_game_over_iff ops s H).
  split; intros (k & rnd' & Hk & Hl); exists k, rnd';
    (split; [exact Hk|]); now apply all_lost_iff.
Qed.

Lemma game_over_at_first_lost_tick_witness :
  game_over Sim.init = false
  /\ satellites (run (ex_lost_run 11) Sim.init)
     = [mkSatellite (mkObject "X" 0 0 0 0 false) (100 - 5) Deorbited]
  /\ game_over (run (ex_lost_run 10) Sim.init) = false
  /\ game_over (run (ex_lost_run 11) Sim.init) = true
  /\ Sim.tick (mkTickDraws 0 (mkGenDraws SideTop 0 0 0 0 0))
              (run (ex_lost_run 11) Sim.init)
     = run (ex_lost_run 11) Sim.init
  /\ game_over (run (ex_alive_run 10) Sim.init) = false
  /\ tick_count (step ex_idle (run (ex_alive_run 10) Sim.init)) = 11%nat
  /\ game_over (step ex_idle (run (ex_alive_run 10) Sim.init)) <> true.
Proof.
  pose proof (ex_lost_run_state 10 ltac:(lia)) as E10.
  pose proof (ex_lost_run_state 11 ltac:(lia)) as E11.
  pose proof ex_alive_run_state as A10.
  pose proof (game_over_at_first_lost_tick
                Sim.init (mkTickDraws 0 (mkGenDraws SideTop 0 0 0 0 0))
                (ex_lost_run 11))
    as (_ & _ & _ & Hrun & _).
  assert (H11 : game_over (run (ex_lost_run 11) Sim.init) = true).
  { apply (Hrun eq_refl).
    exists 12%nat, (mkTickDraws 0.9 (mkGenDraws SideTop 0 0 0 0 0)).
    split; [reflexivity|].
    change (take 13 (ex_lost_run 11)) with (ex_lost_run 11).
    rewrite E11. split; [|simpl; lia].
    intros sat [<- | []]. reflexivity. }
  pose proof (game_over_at_first_lost_tick
                (run (ex_lost_run 11) Sim.init)
                (mkTickDraws 0 (mkGenDraws SideTop 0 0 0 0 0)) [])
    as (Hover & _).
  assert (HA : game_over (run (ex_alive_run 10) Sim.init) = false)
    by now rewrite A10.
  pose proof (game_over_at_first_lost_tick
                (run (ex_alive_run 10) Sim.init)
                (mkTickDraws 0.9 (mkGenDraws SideTop 0 0 0 0 0)) [])
    as (_ & Hlive & _).
  destruct (Hlive HA) as [Ht Hiff].
  split; [reflexivity|]. split; [now rewrite E11|].
  split; [now rewrite E10|]. split; [exact H11|].
  split; [exact (Hover H11)|]. split; [exact HA|]. split.
  - unfold ex_idle. cbn [step]. rewrite Ht, A10. reflexivity.
  - unfold ex_idle. cbn [step]. intros Hgo. apply Hiff in Hgo.
    destruct Hgo as [Hall _]. rewrite A10 in Hall.
    rewrite tick_alive in Hall by lra.
    specialize (Hall _ (or_introl eq_refl)). discriminate Hall.
Defined.

(** ** The collision pass on the scenario *)

Lemma spawn_chance_pos (ticks : nat) : 0 < Sim.spawn_chance ticks.
Proof.
  unfold Sim.spawn_chance. rewrite py_min_Rmin.
  pose proof (pos_INR ticks). apply Rmin_glb_lt; nra.
Qed.

Lemma choose_size_small (u : R) : u * 100 < 60 -> choose_size u = "small".
Proof.
  intros H. unfold choose_size. apply Rltb_true_iff in H. now rewrite H.
Qed.

(** On the x axis the metric is the sum of the abscissas. *)
Lemma on_axis_distance (a b : Entity) :
  y (obj_of a) = 0 -> y (obj_of b) = 0 -> 0 <= x (obj_of a) + x (obj_of b) ->
  distance_to a b = x (obj_of a) + x (obj_of b).
Proof.
  intros Ha Hb Hx. unfold distance_to, Object.distance_to.
  rewrite Ha, Hb.
  replace (_ + _) with (Rsqr (x (obj_of a) + x (obj_of b)))
    by (unfold Rsqr; lra).
  now apply sqrt_Rsqr.
Qed.

(** Decide a check of the detector between two entities of the x axis. *)
Ltac decide_check :=
  unfold Detector.check_collision, Detector.check_proximity_warning;
  rewrite on_axis_distance by (simpl; lra);
  unfold Deb.danger_radius, Detector.SATELLITE_RADIUS; simpl;
  first [apply Rltb_true_iff | apply Rltb_false_iff]; lra.

Lemma ex_a_hits_d (act1 act2 : bool) :
  Detector.check_collision (ESat (ex_a act1)) (EDeb (ex_d act2)) = true.
Proof. decide_check. Qed.

Lemma ex_b_misses_d (act1 act2 : bool) :
  Detector.check_collision (ESat (ex_b act1)) (EDeb (ex_d act2)) = false.
Proof. decide_check. Qed.


Lemma ex_a_hits_b (act1 act2 : bool) :
  Detector.check_collision (ESat (ex_a act1)) (ESat (ex_b act2)) = true.
Proof. decide_check. Qed.

Lemma ex_advance : Sim.advance ex_draws ex_state = ex_moved.
Proof.
  unfold Sim.advance, ex_state, ex_draws, ex_sat_a, ex_sat_b. simpl.
  assert (H : Rltb 0 (Sim.spawn_chance 1) = true)
    by (apply Rltb_true_iff, spawn_chance_pos).
  rewrite H. unfold Sat.init, Deb.init, Object.init.
  rewrite !update_still by lra.
  rewrite choose_size_small by lra.
  unfold uniform, AREA_WIDTH, ex_moved, ex_d.
  do 3 f_equal. f_equal; lra.
Qed.





(** * Further properties *)

(** ** Motion *)

(** X1. An inactive entity does not move.  An active one moves by a step
    whose length is its speed, and keeps its other fields; with heading 0
    the step is along the x axis, with heading 90 along the y axis. *)
Theorem update_moves_by_speed :
  forall o : CelestialObject,
    (active o = false -> Object.update o = o)
    /\ (active o = true ->
        let o' := Object.update o in
        Rsqr (x o' - x o) + Rsqr (y o' - y o) = Rsqr (speed o)
        /\ name o' = name o /\ speed o' = speed o
        /\ angle o' = angle o /\ active o' = true
        /\ (angle o = 0 -> x o' = x o + speed o /\ y o' = y o)
        /\ (angle o = 90 -> x o' = x o /\ y o' = y o + speed o)).
Proof.
  intros o. unfold Object.update. split; intros H; rewrite H; simpl.
  - reflexivity.
  - split.
    + pose proof (sin2_cos2 (radians (angle o))) as E. unfold Rsqr in *. nra.
    + repeat split; trivial.
      * rewrite H0. unfold radians. rewrite Rmult_0_l, cos_0. lra.
      * rewrite H0. unfold radians. rewrite Rmult_0_l, sin_0. lra.
      * rewrite H0. unfold radians.
        replace (90 * (PI / 180)) with (PI / 2) by lra. rewrite cos_PI2. lra.
      * rewrite H0. unfold radians.
        replace (90 * (PI / 180)) with (PI / 2) by lra. rewrite sin_PI2. lra.
Qed.

Lemma update_moves_by_speed_witness :
  active (Object.init "ISS" 200 300 1.5 90) = true
  /\ angle (Object.init "ISS" 200 300 1.5 90) = 90
  /\ x (Object.update (Object.init "ISS" 200 300 1.5 90)) = 200
  /\ y (Object.update (Object.init "ISS" 200 300 1.5 90)) = 300 + 1.5
  /\ active (Object.deactivate (Object.init "ISS" 200 300 1.5 90)) = false
  /\ Object.update (Object.deactivate (Object.init "ISS" 200 300 1.5 90))
     = Object.deactivate (Object.init "ISS" 200 300 1.5 90).
Proof.
  pose proof (update_moves_by_speed (Object.init "ISS" 200 300 1.5 90))
    as [_ Hact].
  pose proof (update_moves_by_speed
                (Object.deactivate (Object.init "ISS" 200 300 1.5 90)))
    as [Hoff _].
  destruct (Hact eq_refl) as (_ & _ & _ & _ & _ & _ & H90).
  destruct (H90 eq_refl) as [Hx Hy].
  split; [reflexivity|]. split; [reflexivity|].
  split; [exact Hx|]. split; [exact Hy|].
  split; [reflexivity | exact (Hoff eq_refl)].
Defined.

(** ** The control surface *)



Lemma update_fuel (s : Satellite) :
  sat_active s = true -> fuel (Sat.update s) = Rmax 0 (fuel s - 0.1).
Proof.
  intros H. rewrite update_active by exact H. apply update_status_fuel.
Qed.

(** After [n] updates the fuel of an active satellite is at least 0 and at
    most what [n] drains of 0.1 leave. *)
Lemma drain_bound (n : nat) (s : Satellite) :
  sat_active s = true -> 0 <= fuel s ->
  let s' := sat_run (replicate n CallUpdate) s in
  sat_active s' = true
  /\ 0 <= fuel s' <= fuel s
  /\ fuel s' <= Rmax 0 (fuel s - INR n * 0.1).
Proof.
  revert s. induction n as [|n IH]; intros s Ha Hf.
  - simpl. split; [exact Ha|]. split; [lra|].
    unfold Rmax. destruct (Rle_dec 0 (fuel s - 0 * 0.1)); lra.
  - change (sat_run (replicate (S n) CallUpdate) s)
      with (sat_run (replicate n CallUpdate) (Sat.update s)).
    assert (Ha' : sat_active (Sat.update s) = true)
      by (now rewrite (proj1 (update_keeps_flag s))).
    pose proof (update_fuel s Ha) as Ef.
    assert (Hf' : 0 <= fuel (Sat.update s) <= fuel s).
    { rewrite Ef. unfold Rmax. destruct (Rle_dec 0 (fuel s - 0.1)); lra. }
    destruct (IH (Sat.update s) Ha' (proj1 Hf')) as (IHa & IHf & IHb).
    cbv zeta in *. split; [exact IHa|]. split; [lra|].
    rewrite S_INR. pose proof (pos_INR n) as Hn. revert IHb. rewrite Ef.
    unfold Rmax.
    destruct (Rle_dec 0 (fuel s - 0.1));
      destruct (Rle_dec 0 _); destruct (Rle_dec 0 _); lra.
Qed.

(** X3. The passive drain.  Each update of an active satellite lowers its
    fuel, unless it is 0 already, and never below 0; the satellite stays
    active and has, after the update, the status of the thresholds; a
    satellite without fuel stays without fuel and critical.  A satellite
    with fuel at most 100 is out of fuel, and critical, after 1001
    updates. *)
Theorem passive_drain :
  forall (n : nat) (s : Satellite),
    sat_active s = true -> 0 <= fuel s ->
    let s' := sat_run (replicate n CallUpdate) s in
    sat_active s' = true
    /\ 0 <= fuel s' <= fuel s
    /\ (0 < fuel s -> fuel (Sat.update s) < fuel s)
    /\ ((0 < n)%nat -> status_by_fuel s')
    /\ ((0 < n)%nat -> fuel s = 0 -> fuel s' = 0 /\ status s' = Critical)
    /\ ((1001 <= n)%nat -> fuel s <= 100 ->
        fuel s' = 0 /\ status s' = Critical).
Proof.
  intros n s Ha Hf. cbv zeta.
  destruct (drain_bound n s Ha Hf) as (Hact & Hrange & Hbound).
  cbv zeta in Hact, Hrange, Hbound.
  assert (Hst : (0 < n)%nat ->
                status_by_fuel (sat_run (replicate n CallUpdate) s)).
  { intros Hn. destruct n as [|n]; [lia|].
    rewrite replicate_S_end. unfold sat_run. rewrite foldl_app. simpl.
    fold (sat_run (replicate n CallUpdate) s).
    destruct (drain_bound n s Ha Hf) as (Hact' & _).
    rewrite update_active by exact Hact'. apply update_status_by_fuel. }
  split; [exact Hact|]. split; [exact Hrange|]. split; [|split; [exact Hst|]].
  - intros Hpos. rewrite update_fuel by exact Ha.
    unfold Rmax. destruct (Rle_dec 0 (fuel s - 0.1)); lra.
  - split.
    + intros Hn H0.
      assert (E : fuel (sat_run (replicate n CallUpdate) s) = 0) by lra.
      split; [exact E | apply (Hst Hn), E].
    + intros Hn H100.
      assert (E : fuel (sat_run (replicate n CallUpdate) s) = 0).
      { apply le_INR in Hn.
        assert (E1001 : INR 1001 = 1001)
          by (rewrite INR_IZR_INZ; reflexivity).
        rewrite E1001 in Hn. revert Hbound. unfold Rmax.
        destruct (Rle_dec 0 (fuel s - INR n * 0.1)); lra. }
      split; [exact E | apply Hst; [lia | exact E]].
Qed.

Lemma passive_drain_witness :
  sat_active (Sat.init "ISS" 200 300 1.5 45 80) = true
  /\ 0 <= fuel (Sat.init "ISS" 200 300 1.5 45 80)
  /\ 0 <= fuel (sat_run (replicate 3 CallUpdate)
                        (Sat.init "ISS" 200 300 1.5 45 80)) <= 80
  /\ fuel (Sat.update (Sat.init "ISS" 200 300 1.5 45 80)) < 80
  /\ status (sat_run (replicate 1001 CallUpdate)
                     (Sat.init "ISS" 200 300 1.5 45 80)) = Critical.
Proof.
  assert (H : 0 <= fuel (Sat.init "ISS" 200 300 1.5 45 80)) by (simpl; lra).
  pose proof (passive_drain 3 (Sat.init "ISS" 200 300 1.5 45 80) eq_refl H)
    as (_ & Hrange & Hstep & _).
  pose proof (passive_drain 1001 (Sat.init "ISS" 200 300 1.5 45 80) eq_refl H)
    as (_ & _ & _ & _ & _ & Hout).
  split; [reflexivity|]. split; [exact H|]. split; [exact Hrange|].
  split; [apply Hstep; simpl; lra|].
  apply Hout; [lia | simpl; lra].
Defined.

(** ** The detector *)

Lemma danger_radius_values (d : Debris) :
  Deb.danger_radius d = 15 \/ Deb.danger_radius d = 25
  \/ Deb.danger_radius d = 40.
Proof.
  unfold Deb.danger_radius.
  destruct (String.eqb (size d) "small"); [now left|].
  destruct (String.eqb (size d) "medium"); [now right; left|].
  destruct (String.eqb (size d) "large"); [now right; right | now left].
Qed.

Lemma distance_to_sym (a b : Entity) : distance_to a b = distance_to b a.
Proof.
  unfold distance_to, Object.distance_to. f_equal. simpl. lra.
Qed.

(** X4. The danger radius of a debris is 15, 25 or 40 for the sizes small,
    medium and large, and 15 for any other size.  The collision check does
    not depend on the order of its arguments, and a collision with a
    satellite is always within the default warning distance of 80. *)
Theorem collision_symmetric_and_within_warning :
  forall (a b : Entity) (s : Satellite) (d : Debris),
    Detector.check_collision a b = Detector.check_collision b a
    /\ (Detector.check_collision (ESat s) b = true ->
        Detector.check_proximity_warning s b 80 = true)
    /\ (size d = "small"%string -> Deb.danger_radius d = 15)
    /\ (size d = "medium"%string -> Deb.danger_radius d = 25)
    /\ (size d = "large"%string -> Deb.danger_radius d = 40)
    /\ (size d <> "small"%string -> size d <> "medium"%string ->
        size d <> "large"%string -> Deb.danger_radius d = 15).
Proof.
  intros a b s d. split; [|split].
  - unfold Detector.check_collision. rewrite (distance_to_sym a b).
    destruct a, b; reflexivity.
  - unfold Detector.check_collision, Detector.check_proximity_warning,
      Detector.SATELLITE_RADIUS.
    destruct b as [o | s2 | d2]; [discriminate | |];
      intros H; apply Rltb_true_iff in H; apply Rltb_true_iff.
    + lra.
    + destruct (danger_radius_values d2) as [E | [E | E]]; rewrite E in H; lra.
  - unfold Deb.danger_radius. repeat split.
    + now intros ->.
    + now intros ->.
    + now intros ->.
    + intros H1 H2 H3.
      apply String.eqb_neq in H1, H2, H3. now rewrite H1, H2, H3.
Qed.

Lemma collision_symmetric_and_within_warning_witness :
  Detector.check_collision (ESat (ex_a true)) (EDeb (ex_d true)) = true
  /\ Detector.check_proximity_warning (ex_a true) (EDeb (ex_d true)) 80 = true
  /\ size (Deb.init "D" 0 0 1 0 "huge") <> "small"%string
  /\ Deb.danger_radius (Deb.init "D" 0 0 1 0 "huge") = 15.
Proof.
  pose proof (collision_symmetric_and_within_warning
                (ESat (ex_a true)) (EDeb (ex_d true)) (ex_a true)
                (Deb.init "D" 0 0 1 0 "huge"))
    as (_ & Hnear & _ & _ & _ & Hother).
  split; [apply ex_a_hits_d|].
  split; [apply Hnear, ex_a_hits_d|].
  split; [discriminate|].
  apply Hother; discriminate.
Defined.

(** ** The generator *)

Lemma spawn_chance_eq (n : nat) :
  Sim.spawn_chance n = Rmin (0.05 + INR n * 0.0005) 0.3.
Proof. unfold Sim.spawn_chance. apply py_min_Rmin. Qed.

(** X5. The spawn chance starts at 0.05, never decreases with the tick
    count, grows by 0.0005 per tick up to tick 500 and is 0.3 from then
    on. *)
Theorem spawn_chance_ramp :
  forall n m : nat,
    0.05 <= Sim.spawn_chance n <= 0.3
    /\ ((n <= m)%nat -> Sim.spawn_chance n <= Sim.spawn_chance m)
    /\ ((n <= 500)%nat -> Sim.spawn_chance n = 0.05 + INR n * 0.0005)
    /\ ((500 <= n)%nat -> Sim.spawn_chance n = 0.3).
Proof.
  intros n m. rewrite !spawn_chance_eq. pose proof (pos_INR n) as Hn.
  assert (E500 : INR 500 = 500) by (rewrite INR_IZR_INZ; reflexivity).
  split; [|split; [|split]].
  - unfold Rmin. destruct (Rle_dec _ _); lra.
  - intros H. apply le_INR in H.
    unfold Rmin. destruct (Rle_dec _ _); destruct (Rle_dec _ _); lra.
  - intros H. apply le_INR in H. rewrite E500 in H.
    unfold Rmin. destruct (Rle_dec _ _); lra.
  - intros H. apply le_INR in H. rewrite E500 in H.
    unfold Rmin. destruct (Rle_dec _ _); lra.
Qed.

Lemma spawn_chance_ramp_witness :
  (100 <= 500)%nat
  /\ Sim.spawn_chance 100 = 0.05 + INR 100 * 0.0005
  /\ Sim.spawn_chance 100 <= Sim.spawn_chance 500
  /\ Sim.spawn_chance 500 = 0.3.
Proof.
  split; [lia|].
  split; [apply (proj1 (proj2 (proj2 (spawn_chance_ramp 100 500)))); lia|].
  split; [apply (proj1 (proj2 (spawn_chance_ramp 100 500))); lia|].
  apply (proj2 (proj2 (proj2 (spawn_chance_ramp 500 500)))); lia.
Defined.

Lemma choose_size_cases (u : R) :
  (u < 0.6 -> choose_size u = "small"%string)
  /\ (0.6 <= u < 0.9 -> choose_size u = "medium"%string)
  /\ (0.9 <= u -> choose_size u = "large"%string).
Proof.
  unfold choose_size. repeat split; intros H; cases_R; try reflexivity; lra.
Qed.

Lemma in_bounds_iff (d : Debris) :
  Sim.in_bounds d = true <-> deb_active d = true /\ in_zone (deb_obj d).
Proof.
  unfold Sim.in_bounds, in_zone. cbv zeta.
  rewrite !andb_true_iff, !Rltb_true_iff. tauto.
Qed.

(** X6. A debris generated with valid draws is active and lies on an edge
    of the field, within the field; its speed is between 1 and 3; its size
    is small, medium or large according to the draw (below 0.6, below 0.9,
    above); its name is formed from the counter of the field, which is
    then incremented.  In the field of the simulation it passes the
    cleanup test. *)
Theorem generate_postcondition :
  forall (g : GenDraws) (f : DebrisField),
    valid_gen g -> 0 <= field_width f -> 0 <= field_height f ->
    let d := fst (Field.generate g f) in
    let f' := snd (Field.generate g f) in
    deb_active d = true
    /\ 0 <= x (deb_obj d) <= field_width f
    /\ 0 <= y (deb_obj d) <= field_height f
    /\ (x (deb_obj d) = 0 \/ x (deb_obj d) = field_width f
        \/ y (deb_obj d) = 0 \/ y (deb_obj d) = field_height f)
    /\ 1 <= speed (deb_obj d) <= 3
    /\ (g_size g < 0.6 -> size d = "small"%string)
    /\ (0.6 <= g_size g < 0.9 -> size d = "medium"%string)
    /\ (0.9 <= g_size g -> size d = "large"%string)
    /\ deb_name d = debris_name (g_name g) (field_counter f)
    /\ field_counter f' = S (field_counter f)
    /\ field_width f' = field_width f /\ field_height f' = field_height f
    /\ (field_width f = AREA_WIDTH -> field_height f = AREA_HEIGHT ->
        Sim.in_bounds d = true).
Proof.
  intros g f (Hc & Ha & Hs & Hv & Hn) Hw Hh. cbv zeta.
  pose proof (uniform_range 0 (field_width f) _ Hw Hc) as Hx.
  pose proof (uniform_range 0 (field_height f) _ Hh Hc) as Hy.
  pose proof (uniform_range 1 3 _ ltac:(lra) Hv) as Hsp.
  destruct (choose_size_cases (g_size g)) as (S1 & S2 & S3).
  assert (Hzone : field_width f = AREA_WIDTH -> field_height f = AREA_HEIGHT ->
                  forall x0 y0, 0 <= x0 <= field_width f ->
                                0 <= y0 <= field_height f ->
                                -50 < x0 < AREA_WIDTH + 50
                                /\ -50 < y0 < AREA_HEIGHT + 50).
  { intros -> -> x0 y0. unfold AREA_WIDTH, AREA_HEIGHT. lra. }
  unfold Field.generate.
  destruct (g_side g); simpl;
    (repeat split; trivial; try lra; try tauto;
     try (intros Ew Eh; apply in_bounds_iff; split; [reflexivity|];
          unfold in_zone; simpl; apply (Hzone Ew Eh); lra)).
Qed.

Lemma generate_postcondition_witness :
  let g := mkGenDraws SideLeft 0.5 0.25 0.7 0.5 3 in
  let f := Field.init AREA_WIDTH AREA_HEIGHT in
  valid_gen g /\ 0 <= field_width f /\ 0 <= field_height f
  /\ size (fst (Field.generate g f)) = "medium"%string
  /\ deb_name (fst (Field.generate g f)) = "Delta-0"%string
  /\ Sim.in_bounds (fst (Field.generate g f)) = true.
Proof.
  cbv zeta.
  assert (Hv : valid_gen (mkGenDraws SideLeft 0.5 0.25 0.7 0.5 3)).
  { unfold valid_gen, unit_draw. simpl. repeat split; try lra; lia. }
  assert (Hw : 0 <= field_width (Field.init AREA_WIDTH AREA_HEIGHT))
    by (simpl; unfold AREA_WIDTH; lra).
  assert (Hh : 0 <= field_height (Field.init AREA_WIDTH AREA_HEIGHT))
    by (simpl; unfold AREA_HEIGHT; lra).
  destruct (generate_postcondition _ _ Hv Hw Hh)
    as (_ & _ & _ & _ & _ & _ & Hmed & _ & Hname & _ & _ & _ & Hin).
  split; [exact Hv|]. split; [exact Hw|]. split; [exact Hh|].
  split; [apply Hmed; simpl; lra|].
  split; [exact Hname|].
  apply Hin; reflexivity.
Defined.

Lemma to_uint_not_nil (n : nat) : Nat.to_uint n <> Decimal.Nil.
Proof.
  intros H. pose proof (Unsigned.to_of (Nat.to_uint n)) as E.
  rewrite Unsigned.of_to, H in E. discriminate E.
Qed.

Lemma str_of_nat_inj (n m : nat) : str_of_nat n = str_of_nat m -> n = m.
Proof.
  unfold str_of_nat. intros H.
  apply Unsigned.to_uint_inj.
  assert (E : NilZero.uint_of_string (NilZero.string_of_uint (Nat.to_uint n))
              = NilZero.uint_of_string (NilZero.string_of_uint (Nat.to_uint m)))
    by now rewrite H.
  rewrite !NilZero.usu in E by apply to_uint_not_nil.
  now injection E.
Qed.

(** Two names of the generator are equal only if their counters are. *)
Lemma debris_name_counter (i j c c' : nat) :
  debris_name i c = debris_name j c' -> c = c'.
Proof.
  unfold debris_name. intros H. apply str_of_nat_inj.
  revert H. generalize (str_of_nat c) (str_of_nat c'). intros a b.
  do 10 (destruct i as [|i];
         [do 10 (destruct j as [|j]; [cbv; intros H; congruence|]);
          cbv; intros H; congruence|]).
  do 10 (destruct j as [|j]; [cbv; intros H; congruence|]).
  cbv; intros H; congruence.
Qed.

(** ** The collision pass *)

Lemma Forall2_diag {A : Type} (P : A -> A -> Prop) (l : list A) :
  (forall a, P a a) -> Forall2 P l l.
Proof. intros H. induction l; constructor; auto. Qed.

Lemma Forall2_chain {A : Type} (P Q T : A -> A -> Prop) (l1 l2 l3 : list A) :
  (forall a b c, P a b -> Q b c -> T a c) ->
  Forall2 P l1 l2 -> Forall2 Q l2 l3 -> Forall2 T l1 l3.
Proof.
  intros H H12. revert l3.
  induction H12 as [|a b l1 l2 Hab _ IH]; intros l3 H23;
    inversion H23; subst; constructor; eauto.
Qed.

Lemma Forall2_map_l {A B : Type} (f : A -> A) (P : A -> B -> Prop)
    (l : list A) (k : list B) :
  Forall2 P (map f l) k <-> Forall2 (fun a b => P (f a) b) l k.
Proof.
  revert k. induction l as [|a l IH]; intros k; simpl; split;
    inversion 1; subst; constructor; try apply IH; auto.
Qed.

Lemma foldl_related {A B : Type} (P : A -> A -> Prop) (f : A -> B -> A)
    (l : list B) :
  (forall a, P a a) -> (forall a b c, P a b -> P b c -> P a c) ->
  (forall a b, P a (f a b)) -> forall a, P a (foldl f a l).
Proof.
  intros Hr Ht Hf. induction l as [|b l IH]; intros a; simpl; [apply Hr|].
  eapply Ht; [apply Hf | apply IH].
Qed.

Lemma sat_deactivated_trans (a b c : Satellite) :
  sat_deactivated a b -> sat_deactivated b c -> sat_deactivated a c.
Proof. intros [-> | ->] [-> | ->]; (now left) || (now right). Qed.

Lemma deb_deactivated_trans (a b c : Debris) :
  deb_deactivated a b -> deb_deactivated b c -> deb_deactivated a c.
Proof. intros [-> | ->] [-> | ->]; (now left) || (now right). Qed.

Lemma pass_effect_refl (s : Simulation) : pass_effect s s.
Proof.
  unfold pass_effect. repeat split.
  - apply Forall2_diag. now left.
  - apply Forall2_diag. now left.
  - exists []. now rewrite app_nil_r.
  - lia.
Qed.

Lemma pass_effect_trans (s1 s2 s3 : Simulation) :
  pass_effect s1 s2 -> pass_effect s2 s3 -> pass_effect s1 s3.
Proof.
  intros (Hs & Hd & [n1 He] & Hc & Hf) (Hs' & Hd' & [n2 He'] & Hc' & Hf').
  unfold pass_effect. repeat split.
  - eapply Forall2_chain; [apply sat_deactivated_trans | eassumption..].
  - eapply Forall2_chain; [apply deb_deactivated_trans | eassumption..].
  - exists (n1 ++ n2). now rewrite He', He, app_assoc.
  - lia.
  - congruence.
Qed.

Lemma alter_deactivates_sat (i : nat) (l : list Satellite) :
  Forall2 sat_deactivated l (alter Sat.deactivate i l).
Proof.
  apply Forall2_alter_r; [apply Forall2_diag; now left|].
  intros a b _ _ [-> | ->]; now right.
Qed.

Lemma alter_deactivates_deb (i : nat) (l : list Debris) :
  Forall2 deb_deactivated l (alter Deb.deactivate i l).
Proof.
  apply Forall2_alter_r; [apply Forall2_diag; now left|].
  intros a b _ _ [-> | ->]; now right.
Qed.

Lemma sat_debris_step_effect (i j : nat) (s : Simulation) :
  pass_effect s (Sim.sat_debris_step i j s).
Proof.
  unfold Sim.sat_debris_step.
  destruct (satellites s !! i) as [sat|], (debris_list s !! j) as [deb|];
    try apply pass_effect_refl.
  destruct (Detector.check_collision _ _).
  - unfold pass_effect. simpl. repeat split.
    + apply alter_deactivates_sat.
    + apply alter_deactivates_deb.
    + eauto.
    + lia.
  - destruct (Detector.check_proximity_warning _ _ _);
      [|apply pass_effect_refl].
    unfold pass_effect. simpl. repeat split.
    + apply Forall2_diag. now left.
    + apply Forall2_diag. now left.
    + eauto.
    + lia.
Qed.

Lemma sat_pair_step_effect (snap : list nat) (i j : nat) (s : Simulation) :
  pass_effect s (Sim.sat_pair_step snap i j s).
Proof.
  unfold Sim.sat_pair_step.
  destruct (snap !! i) as [a|], (snap !! j) as [b|];
    try apply pass_effect_refl.
  destruct (satellites s !! a) as [sa|], (satellites s !! b) as [sb|];
    try apply pass_effect_refl.
  destruct (Detector.check_collision _ _); [|apply pass_effect_refl].
  unfold pass_effect. simpl. repeat split.
  - eapply Forall2_chain;
      [apply sat_deactivated_trans | apply alter_deactivates_sat
      | apply alter_deactivates_sat].
  - apply Forall2_diag. now left.
  - eauto.
  - lia.
Qed.

Lemma foldl_effect {B : Type} (f : Simulation -> B -> Simulation)
    (l : list B) :
  (forall a b, pass_effect a (f a b)) ->
  forall a, pass_effect a (foldl f a l).
Proof.
  intros H.
  exact (@foldl_related Simulation B pass_effect f l pass_effect_refl
           pass_effect_trans H).
Qed.

Lemma check_all_collisions_effect (s : Simulation) :
  pass_effect s (Sim._check_all_collisions s).
Proof.
  unfold Sim._check_all_collisions, Sim.sat_pair_loop, Sim.sat_debris_loop.
  eapply pass_effect_trans; cycle 1.
  - apply foldl_effect. intros a i. apply foldl_effect. intros b j.
    apply sat_pair_step_effect.
  - apply foldl_effect. intros a i. apply foldl_effect. intros b j.
    apply sat_debris_step_effect.
Qed.

(** X7. The collision pass only deactivates: every satellite and every
    debris is, after the pass, the entity it was or that entity
    deactivated, at the same place in its list (so positions, fuel, status
    and names are kept and nothing is reactivated); the events are
    appended to the log, the collision counter does not decrease, and the
    tick counter, the score, the generator and the flag are not written. *)
Theorem collision_pass_only_deactivates :
  forall s : Simulation, pass_effect s (Sim._check_all_collisions s).
Proof. apply check_all_collisions_effect. Qed.

(** ** The roster of satellites *)

Lemma advance_satellites (rnd : TickDraws) (s : Simulation) :
  satellites (Sim.advance rnd s) = map Sat.update (satellites s).
Proof.
  unfold Sim.advance. destruct (Rltb _ _); [|reflexivity].
  now destruct (Field.generate _ _).
Qed.

Lemma tick_satellites (rnd : TickDraws) (s : Simulation) :
  game_over s = false ->
  Forall2 (fun a b => sat_deactivated (Sat.update a) b)
          (satellites s) (satellites (Sim.tick rnd s)).
Proof.
  intros H. unfold Sim.tick. rewrite H.
  change (satellites (Sim.settle (Sim._cleanup_out_of_bounds ?z)))
    with (satellites z).
  apply Forall2_map_l. rewrite <- (advance_satellites rnd).
  apply check_all_collisions_effect.
Qed.

Lemma sat_kept_refl (a : Satellite) : sat_kept a a.
Proof. now split. Qed.

Lemma sat_kept_trans (a b c : Satellite) :
  sat_kept a b -> sat_kept b c -> sat_kept a c.
Proof. intros [N1 A1] [N2 A2]. split; [congruence | auto]. Qed.

Lemma deactivate_kept (a : Satellite) : sat_kept a (Sat.deactivate a).
Proof. now split. Qed.

Lemma update_kept (a : Satellite) : sat_kept a (Sat.update a).
Proof.
  destruct (update_keeps_flag a) as [Ha Hn]. split; [exact Hn | congruence].
Qed.

Lemma change_angle_kept (v : R) (a : Satellite) :
  sat_kept a (Sat.change_angle v a).
Proof.
  unfold Sat.change_angle. destruct (Rleb (fuel a) 0); [apply sat_kept_refl|].
  unfold sat_kept, sat_name, sat_active. rewrite update_status_obj.
  now split.
Qed.

Lemma change_speed_kept (v : R) (a : Satellite) :
  sat_kept a (Sat.change_speed v a).
Proof.
  unfold Sat.change_speed. destruct (Rleb (fuel a) 0); [apply sat_kept_refl|].
  unfold sat_kept, sat_name, sat_active. rewrite update_status_obj.
  now split.
Qed.

Lemma deorbit_kept (a : Satellite) : sat_kept a (snd (Sat.deorbit a)).
Proof.
  unfold Sat.deorbit. destruct (Rleb 5 (fuel a)); simpl;
    [now split | apply sat_kept_refl].
Qed.

Lemma sat_call_kept (c : SatCall) (a : Satellite) : sat_kept a (sat_call c a).
Proof.
  destruct c; simpl;
    auto using update_kept, change_angle_kept, change_speed_kept,
      deorbit_kept, deactivate_kept.
Qed.

Lemma deorbit_scan_kept (n : string) (l : list Satellite) :
  match Sim.deorbit_scan n l with
  | Some (_, _, l') => Forall2 sat_kept l l'
  | None => True
  end.
Proof.
  induction l as [|sat rest IH]; simpl; [exact I|].
  destruct (String.eqb (sat_name sat) n && sat_active sat).
  - pose proof (deorbit_kept sat) as H.
    destruct (Sat.deorbit sat) as [ok sat']. simpl in H.
    constructor; [exact H | apply Forall2_diag, sat_kept_refl].
  - destruct (Sim.deorbit_scan n rest) as [[[found ok] rest']|]; [|exact I].
    constructor; [apply sat_kept_refl | exact IH].
Qed.

Lemma on_selected_kept (f : Satellite -> Satellite) (n : string)
    (s : Simulation) :
  (forall a, sat_kept a (f a)) ->
  Forall2 sat_kept (satellites s) (satellites (Window.on_selected f n s)).
Proof.
  intros Hf. simpl. induction (satellites s) as [|a l IH]; simpl;
    constructor; [|exact IH].
  destruct (String.eqb (sat_name a) n && sat_active a);
    [apply Hf | apply sat_kept_refl].
Qed.

Lemma step_kept (o : Op) (s : Simulation) :
  (forall sat, o <> OpAddSatellite sat) ->
  Forall2 sat_kept (satellites s) (satellites (step o s)).
Proof.
  intros Hadd. destruct o as [rnd | sat | | n | sel v | sel v | i c]; simpl.
  - destruct (game_over s) eqn:E.
    + rewrite tick_when_over by exact E. apply Forall2_diag, sat_kept_refl.
    + eapply Forall2_impl; [apply (tick_satellites rnd s E)|].
      intros a b [-> | ->];
        [apply update_kept
        | eapply sat_kept_trans; [apply update_kept | apply deactivate_kept]].
  - now contradiction (Hadd sat).
  - apply Forall2_diag, sat_kept_refl.
  - unfold Sim.deorbit_satellite.
    pose proof (deorbit_scan_kept n (satellites s)) as H.
    destruct (Sim.deorbit_scan n (satellites s)) as [[[found [|]] l']|];
      simpl; (exact H || apply Forall2_diag, sat_kept_refl).
  - unfold Window._change_angle. destruct (Window.is_selected sel);
      [apply on_selected_kept, change_angle_kept
      | apply Forall2_diag, sat_kept_refl].
  - unfold Window._change_speed. destruct (Window.is_selected sel);
      [apply on_selected_kept, change_speed_kept
      | apply Forall2_diag, sat_kept_refl].
  - apply Forall2_alter_r; [apply Forall2_diag, sat_kept_refl|].
    intros a b _ _ H. eapply sat_kept_trans; [exact H | apply sat_call_kept].
Qed.

Lemma kept_active_count (l l' : list Satellite) :
  Forall2 sat_kept l l' ->
  (length (List.filter sat_active l') <= length (List.filter sat_active l))%nat.
Proof.
  induction 1 as [|a b l l' [_ Hab] _ IH]; simpl; [lia|].
  destruct (sat_active a) eqn:Ea.
  - destruct (sat_active b); simpl; lia.
  - rewrite (Hab eq_refl). exact IH.
Qed.

Lemma run_kept (ops : list Op) (s : Simulation) :
  exists kept added,
    satellites (run ops s) = kept ++ added
    /\ Forall2 sat_kept (satellites s) kept.
Proof.
  revert s. induction ops as [|o ops IH]; intros s.
  - exists (satellites s), []. split; [now rewrite app_nil_r|].
    apply Forall2_diag, sat_kept_refl.
  - rewrite run_cons. destruct (IH (step o s)) as (kept & added & E & Hk).
    assert (Hstep : exists k1 a1,
               satellites (step o s) = k1 ++ a1
               /\ Forall2 sat_kept (satellites s) k1).
    { destruct o as [rnd | sat | | n | sel v | sel v | i c];
        try (eexists _, []; split; [now rewrite app_nil_r|];
             apply step_kept; discriminate).
      exists (satellites s), [sat]. split; [reflexivity|].
      apply Forall2_diag, sat_kept_refl. }
    destruct Hstep as (k1 & a1 & E1 & Hk1). rewrite E1 in Hk.
    apply Forall2_app_inv_l in Hk. destruct Hk as (k2 & k3 & H2 & H3 & ->).
    exists k2, (k3 ++ added). split; [now rewrite E, app_assoc|].
    eapply Forall2_chain; [apply sat_kept_trans | exact Hk1 | exact H2].
Qed.

(** X8. Satellites are never removed, reordered, renamed or reactivated.
    [add_satellite] appends one satellite.  Every other operation keeps
    the list position by position: each satellite keeps its name and, if
    it was inactive, stays inactive; the count of active satellites does
    not increase.  After any run, the list starts with the satellites it
    had, in that relation, followed by the added ones. *)
Theorem satellites_are_never_reactivated :
  forall (o : Op) (ops : list Op) (s : Simulation),
    (forall sat, o = OpAddSatellite sat ->
                 satellites (step o s) = satellites s ++ [sat])
    /\ ((forall sat, o <> OpAddSatellite sat) ->
        Forall2 sat_kept (satellites s) (satellites (step o s))
        /\ (active_count (step o s) <= active_count s)%nat)
    /\ (exists kept added,
          satellites (run ops s) = kept ++ added
          /\ Forall2 sat_kept (satellites s) kept).
Proof.
  intros o ops s. split; [|split].
  - now intros sat ->.
  - intros H. split; [now apply step_kept|].
    unfold active_count. now apply kept_active_count, step_kept.
  - apply run_kept.
Qed.

Lemma satellites_are_never_reactivated_witness :
  (active_count (step (OpTick ex_draws) ex_state) <= active_count ex_state)%nat
  /\ satellites (step (OpAddSatellite ex_sat_b)
                      (Sim.add_satellite ex_sat_a Sim.init))
     = [ex_sat_a; ex_sat_b].
Proof.
  pose proof (satellites_are_never_reactivated (OpTick ex_draws) [] ex_state)
    as (_ & Htick & _).
  pose proof (satellites_are_never_reactivated
                (OpAddSatellite ex_sat_b) []
                (Sim.add_satellite ex_sat_a Sim.init))
    as (Hadd & _).
  split.
  - apply Htick. intros sat. discriminate.
  - apply (Hadd ex_sat_b). reflexivity.
Defined.

(** X9. A tick of a simulation that is not over adds 1 to the tick
    counter and does to each satellite exactly this: it updates it, and
    the collision pass may then deactivate it.  An inactive satellite comes
    out unchanged.  The score grows by the number of satellites that are
    active when the tick ends. *)
Theorem tick_updates_each_satellite :
  forall (rnd : TickDraws) (s : Simulation),
    game_over s = false ->
    tick_count (Sim.tick rnd s) = S (tick_count s)
    /\ Forall2 (fun a b =>
                  (b = Sat.update a \/ b = Sat.deactivate (Sat.update a))
                  /\ (sat_active a = false -> b = a))
               (satellites s) (satellites (Sim.tick rnd s))
    /\ score (Sim.tick rnd s)
       = (score s + active_count (Sim.tick rnd s))%nat.
Proof.
  intros rnd s H. split; [apply (tick_when_live rnd s H)|]. split.
  - eapply Forall2_impl; [apply (tick_satellites rnd s H)|].
    intros a b Hab. split; [exact Hab|].
    intros Ha. unfold sat_deactivated in Hab.
    rewrite (update_inactive a Ha) in Hab.
    destruct Hab as [-> | ->]; [reflexivity|].
    destruct a as [[n x0 y0 v ang act] f st]. unfold sat_active in Ha.
    simpl in Ha. now subst act.
  - unfold Sim.tick. rewrite H.
    pose proof (check_all_collisions_frame (Sim.advance rnd s)) as Hf.
    unfold frame in Hf. injection Hf as _ _ Hs _ _.
    destruct (advance_counters rnd s) as (_ & As & _).
    unfold Sim.settle, active_count. simpl. now rewrite Hs, As.
Qed.

Lemma tick_updates_each_satellite_witness :
  game_over ex_state = false
  /\ tick_count (Sim.tick ex_draws ex_state) = 1%nat
  /\ score (Sim.tick ex_draws ex_state)
     = (0 + active_count (Sim.tick ex_draws ex_state))%nat.
Proof.
  pose proof (tick_updates_each_satellite ex_draws ex_state eq_refl)
    as (Ht & _ & Hs).
  split; [reflexivity|]. split; [exact Ht | exact Hs].
Defined.

(** ** The debris of the simulation *)

Lemma deb_update_keeps (d : Debris) :
  deb_active (Deb.update d) = deb_active d
  /\ deb_name (Deb.update d) = deb_name d.
Proof.
  unfold deb_active, deb_name, Deb.update, Object.update. simpl.
  destruct (active (deb_obj d)) eqn:E; simpl; now rewrite ?E.
Qed.

Lemma advance_debris (rnd : TickDraws) (s : Simulation) :
  let spawn := Rltb (t_roll rnd) (Sim.spawn_chance (S (tick_count s))) in
  let gen := Field.generate (t_gen rnd) (debris_field s) in
  debris_list (Sim.advance rnd s)
  = map Deb.update (debris_list s) ++ (if spawn then [fst gen] else [])
  /\ debris_field (Sim.advance rnd s)
     = (if spawn then snd gen else debris_field s).
Proof.
  cbv zeta. unfold Sim.advance. destruct (Rltb _ _).
  - destruct (Field.generate _ _). now split.
  - simpl. now rewrite app_nil_r.
Qed.

Lemma Forall2_In_r {A B : Type} (P : A -> B -> Prop) (l : list A)
    (k : list B) (b : B) :
  Forall2 P l k -> In b k -> exists a, In a l /\ P a b.
Proof.
  induction 1 as [|a b' l k Hab _ IH]; simpl; [tauto|].
  intros [-> | Hin]; [now exists a; auto|].
  destruct (IH Hin) as (a' & Ha' & HP). exists a'. auto.
Qed.

Lemma filter_twice {A : Type} (p : A -> bool) (l : list A) :
  List.filter p (List.filter p l) = List.filter p l.
Proof.
  induction l as [|a l IH]; simpl; [reflexivity|].
  destruct (p a) eqn:E; simpl; rewrite ?E, IH; reflexivity.
Qed.

Lemma tick_debris (rnd : TickDraws) (s : Simulation) (d : Debris) :
  game_over s = false ->
  In d (debris_list (Sim.tick rnd s)) ->
  deb_active d = true /\ in_zone (deb_obj d)
  /\ ((exists d0, In d0 (debris_list s) /\ deb_active d0 = true
                  /\ d = Deb.update d0)
      \/ (Rltb (t_roll rnd) (Sim.spawn_chance (S (tick_count s))) = true
          /\ d = fst (Field.generate (t_gen rnd) (debris_field s)))).
Proof.
  intros H Hin. unfold Sim.tick in Hin. rewrite H in Hin. simpl in Hin.
  apply filter_In in Hin. destruct Hin as [Hin Hb].
  apply in_bounds_iff in Hb. destruct Hb as [Hact Hz].
  split; [exact Hact|]. split; [exact Hz|].
  destruct (check_all_collisions_effect (Sim.advance rnd s)) as (_ & Hd & _).
  destruct (Forall2_In_r _ _ _ _ Hd Hin) as (d1 & Hin1 & Hdd).
  assert (E : d = d1).
  { destruct Hdd as [-> | ->]; [reflexivity|]. discriminate Hact. }
  subst d1. rewrite (proj1 (advance_debris rnd s)) in Hin1. cbv zeta in Hin1.
  apply in_app_or in Hin1. destruct Hin1 as [Hold | Hnew].
  - left. apply in_map_iff in Hold. destruct Hold as (d0 & <- & Hin0).
    exists d0. split; [exact Hin0|]. split; [|reflexivity].
    now rewrite <- (proj1 (deb_update_keeps d0)).
  - right. destruct (Rltb _ _); [|contradiction].
    destruct Hnew as [<- | []]. now split.
Qed.

(** A tick of a simulation without satellites: the debris move, one may be
    spawned, and the cleanup runs. *)
Lemma tick_without_satellites (rnd : TickDraws) (debs : list Debris)
    (fld : DebrisField) (tc sc co de : nat) (ev : list string) :
  Sim.tick rnd (mkSimulation [] debs fld tc sc co de false ev)
  = mkSimulation []
      (List.filter Sim.in_bounds
         (map Deb.update debs
          ++ (if Rltb (t_roll rnd) (Sim.spawn_chance (S tc))
              then [fst (Field.generate (t_gen rnd) fld)] else [])))
      (if Rltb (t_roll rnd) (Sim.spawn_chance (S tc))
       then snd (Field.generate (t_gen rnd) fld) else fld)
      (S tc) sc co de (Nat.ltb 10 (S tc)) ev.
Proof.
  unfold Sim.tick, Sim.advance. simpl.
  destruct (Rltb (t_roll rnd) (Sim.spawn_chance (S tc)));
    [destruct (Field.generate (t_gen rnd) fld) as [deb fld']|];
    rewrite pass_quiet by (now left);
    unfold Sim._cleanup_out_of_bounds, Sim.settle, active_count; simpl;
    rewrite ?app_nil_r, Nat.add_0_r; now destruct (Nat.ltb 10 (S tc)).
Qed.

Lemma ex_generate0 :
  Field.generate (t_gen (ex_spawn 0)) (Field.init AREA_WIDTH AREA_HEIGHT)
  = (ex_deb0 0, mkDebrisField AREA_WIDTH AREA_HEIGHT 1).
Proof.
  unfold Field.generate, ex_spawn, ex_deb0, Deb.init, Object.init. simpl.
  rewrite choose_size_small by lra. unfold uniform, AREA_HEIGHT.
  do 3 f_equal; lra.
Qed.

Lemma ex_generate1 :
  Field.generate (t_gen (ex_spawn 1)) (mkDebrisField AREA_WIDTH AREA_HEIGHT 1)
  = (ex_deb1, mkDebrisField AREA_WIDTH AREA_HEIGHT 2).
Proof.
  unfold Field.generate, ex_spawn, ex_deb1, Deb.init, Object.init. simpl.
  rewrite choose_size_small by lra. unfold uniform, AREA_HEIGHT.
  do 3 f_equal; lra.
Qed.

Lemma ex_deb0_moves : Deb.update (ex_deb0 0) = ex_deb0 2.
Proof.
  unfold Deb.update, Object.update, ex_deb0, radians. simpl.
  rewrite Rmult_0_l, cos_0, sin_0. do 2 f_equal; lra.
Qed.

Lemma ex_deb0_in_bounds (x0 : R) :
  0 <= x0 <= 2 -> Sim.in_bounds (ex_deb0 x0) = true.
Proof.
  intros H. apply in_bounds_iff. split; [reflexivity|].
  unfold in_zone, AREA_WIDTH, AREA_HEIGHT. simpl. lra.
Qed.

Lemma ex_deb1_in_bounds : Sim.in_bounds ex_deb1 = true.
Proof.
  apply in_bounds_iff. split; [reflexivity|].
  unfold in_zone, AREA_WIDTH, AREA_HEIGHT. simpl. lra.
Qed.

Lemma ex_spawn_tick0 : Sim.tick (ex_spawn 0) Sim.init = ex_one_debris.
Proof.
  unfold Sim.init. rewrite tick_without_satellites.
  assert (H : Rltb (t_roll (ex_spawn 0)) (Sim.spawn_chance 1) = true)
    by (apply Rltb_true_iff, spawn_chance_pos).
  rewrite H, ex_generate0. simpl.
  rewrite ex_deb0_in_bounds by lra. reflexivity.
Qed.

Lemma ex_spawn_tick1 : Sim.tick (ex_spawn 1) ex_one_debris = ex_two_debris.
Proof.
  unfold ex_one_debris. rewrite tick_without_satellites.
  assert (H : Rltb (t_roll (ex_spawn 1)) (Sim.spawn_chance 2) = true)
    by (apply Rltb_true_iff, spawn_chance_pos).
  rewrite H, ex_generate1. simpl. rewrite ex_deb0_moves.
  rewrite ex_deb0_in_bounds, ex_deb1_in_bounds by lra. reflexivity.
Qed.

(** X10. The cleanup keeps exactly the debris that are active and inside
    the arena extended by 50; doing it twice changes nothing more, and it
    never touches the satellites.  Hence after a tick of a simulation that
    is not over every debris of the list is active and inside that zone,
    and is either the update of a debris that was in the list and active,
    or the debris spawned by this tick. *)
Theorem cleanup_keeps_active_debris_in_zone :
  forall (rnd : TickDraws) (s : Simulation) (d : Debris),
    (In d (debris_list (Sim._cleanup_out_of_bounds s)) <->
     In d (debris_list s) /\ deb_active d = true /\ in_zone (deb_obj d))
    /\ Sim._cleanup_out_of_bounds (Sim._cleanup_out_of_bounds s)
       = Sim._cleanup_out_of_bounds s
    /\ satellites (Sim._cleanup_out_of_bounds s) = satellites s
    /\ (game_over s = false ->
        In d (debris_list (Sim.tick rnd s)) ->
        deb_active d = true /\ in_zone (deb_obj d)
        /\ ((exists d0, In d0 (debris_list s) /\ deb_active d0 = true
                        /\ d = Deb.update d0)
            \/ (Rltb (t_roll rnd) (Sim.spawn_chance (S (tick_count s))) = true
                /\ d = fst (Field.generate (t_gen rnd) (debris_field s))))).
Proof.
  intros rnd s d. split; [|split; [|split]].
  - simpl. rewrite filter_In, in_bounds_iff. tauto.
  - unfold Sim._cleanup_out_of_bounds. simpl. now rewrite filter_twice.
  - reflexivity.
  - apply tick_debris.
Qed.

Lemma cleanup_keeps_active_debris_in_zone_witness :
  game_over ex_one_debris = false
  /\ In (ex_deb0 2) (debris_list (Sim.tick (ex_spawn 1) ex_one_debris))
  /\ In ex_deb1 (debris_list (Sim.tick (ex_spawn 1) ex_one_debris))
  /\ (deb_active (ex_deb0 2) = true /\ in_zone (deb_obj (ex_deb0 2)))
  /\ (exists d0, In d0 (debris_list ex_one_debris) /\ deb_active d0 = true
                 /\ ex_deb0 2 = Deb.update d0)
  /\ (In (ex_deb0 2) (debris_list (Sim._cleanup_out_of_bounds ex_two_debris))
      <-> In (ex_deb0 2) (debris_list ex_two_debris)
          /\ deb_active (ex_deb0 2) = true /\ in_zone (deb_obj (ex_deb0 2))).
Proof.
  assert (Hin0 : In (ex_deb0 2)
                    (debris_list (Sim.tick (ex_spawn 1) ex_one_debris)))
    by (rewrite ex_spawn_tick1; now left).
  assert (Hin1 : In ex_deb1 (debris_list (Sim.tick (ex_spawn 1) ex_one_debris)))
    by (rewrite ex_spawn_tick1; right; now left).
  pose proof (cleanup_keeps_active_debris_in_zone
                (ex_spawn 1) ex_one_debris (ex_deb0 2))
    as (_ & _ & _ & Htick).
  pose proof (cleanup_keeps_active_debris_in_zone
                (ex_spawn 1) ex_two_debris (ex_deb0 2))
    as (Hclean & _).
  destruct (Htick eq_refl Hin0) as (Ha & Hz & [Hold | [_ Hnew]]).
  - split; [reflexivity|]. split; [exact Hin0|]. split; [exact Hin1|].
    split; [now split|]. split; [exact Hold | exact Hclean].
  - exfalso. unfold ex_one_debris in Hnew. cbn [debris_field] in Hnew.
    rewrite ex_generate1 in Hnew. discriminate Hnew.
Defined.

Lemma names_fresh_ext (k : nat) (l l' : list Debris) :
  map deb_name l' = map deb_name l -> names_fresh k l -> names_fresh k l'.
Proof.
  intros E [Hf Hn]. unfold names_fresh. rewrite E. split; [|exact Hn].
  apply (Forall_map deb_name
           (fun n => exists i c, (c < k)%nat /\ n = debris_name i c)).
  rewrite E.
  now apply (Forall_map deb_name
               (fun n => exists i c, (c < k)%nat /\ n = debris_name i c)).
Qed.

Lemma names_fresh_snoc (k i : nat) (l : list Debris) (d : Debris) :
  names_fresh k l -> deb_name d = debris_name i k ->
  names_fresh (S k) (l ++ [d]).
Proof.
  intros [Hf Hn] Hd. split.
  - apply Forall_app. split.
    + eapply Forall_impl; [exact Hf|]. intros a (j & c & Hc & Ha).
      exists j, c. split; [lia | exact Ha].
    + constructor; [|constructor]. exists i, k. split; [lia | exact Hd].
  - rewrite map_app. simpl. apply NoDup_app. split; [exact Hn|].
    split; [|apply NoDup_singleton].
    intros n Hin Hin'. apply list_elem_of_singleton in Hin'. subst n.
    apply list_elem_of_In, in_map_iff in Hin.
    destruct Hin as (a & Ea & Hina).
    rewrite List.Forall_forall in Hf. destruct (Hf a Hina) as (j & c & Hc & Ha).
    rewrite Ha, Hd in Ea. apply debris_name_counter in Ea. lia.
Qed.

Lemma names_fresh_filter (k : nat) (p : Debris -> bool) (l : list Debris) :
  names_fresh k l -> names_fresh k (List.filter p l).
Proof.
  intros [Hf Hn]. split.
  - rewrite List.Forall_forall in *. intros d Hd. apply filter_In in Hd.
    now apply Hf.
  - induction l as [|a l IH]; simpl in *; [constructor|].
    inversion Hn as [|? ? Hnotin Hn']; subst.
    inversion Hf as [|? ? _ Hf']; subst.
    destruct (p a); simpl; [|now apply IH].
    constructor; [|now apply IH].
    intros Hin. apply Hnotin.
    apply list_elem_of_In, in_map_iff in Hin.
    destruct Hin as (b & Eb & Hb). apply filter_In in Hb.
    apply list_elem_of_In, in_map_iff. exists b. tauto.
Qed.

Lemma deactivated_names (l l' : list Debris) :
  Forall2 deb_deactivated l l' -> map deb_name l' = map deb_name l.
Proof.
  induction 1 as [|a b l l' Hab _ IH]; simpl; [reflexivity|].
  rewrite IH. now destruct Hab as [-> | ->].
Qed.

Lemma generate_name (g : GenDraws) (f : DebrisField) :
  deb_name (fst (Field.generate g f)) = debris_name (g_name g) (field_counter f)
  /\ field_counter (snd (Field.generate g f)) = S (field_counter f).
Proof. unfold Field.generate. now destruct (g_side g). Qed.

Lemma step_debris (o : Op) (s : Simulation) :
  (forall rnd, o <> OpTick rnd) ->
  debris_list (step o s) = debris_list s
  /\ debris_field (step o s) = debris_field s.
Proof.
  intros H. destruct o as [rnd | sat | | n | sel v | sel v | i c]; simpl;
    try (now split).
  - now contradiction (H rnd).
  - unfold Sim.deorbit_satellite.
    now destruct (Sim.deorbit_scan n (satellites s)) as [[[found [|]] l']|].
  - unfold Window._change_angle. now destruct (Window.is_selected sel).
  - unfold Window._change_speed. now destruct (Window.is_selected sel).
Qed.

Lemma tick_debris_invariant (rnd : TickDraws) (s : Simulation) :
  debris_invariant s -> debris_invariant (Sim.tick rnd s).
Proof.
  intros (Hz & Hn & Hl & Hk).
  destruct (game_over s) eqn:E; [now rewrite tick_when_over|].
  split.
  { apply List.Forall_forall. intros d Hd.
    destruct (tick_debris rnd s d E Hd) as (Ha & Hzone & _). now split. }
  destruct (tick_when_live rnd s E) as [Ht _].
  unfold Sim.tick in *. rewrite E in *.
  change (debris_field (Sim.settle (Sim._cleanup_out_of_bounds ?z)))
    with (debris_field z).
  change (debris_list (Sim.settle (Sim._cleanup_out_of_bounds ?z)))
    with (List.filter Sim.in_bounds (debris_list z)).
  rewrite Ht. clear Ht.
  destruct (check_all_collisions_effect (Sim.advance rnd s))
    as (_ & Hd & _ & _ & Hf).
  unfold frame in Hf. injection Hf as Hfld _ _ _ _. rewrite Hfld.
  destruct (advance_debris rnd s) as [EL EF]. cbv zeta in EL, EF.
  pose proof (deactivated_names _ _ Hd) as Hnames.
  pose proof (Forall2_length _ _ _ Hd) as Hlen.
  pose proof (List.filter_length_le Sim.in_bounds
                (debris_list (Sim._check_all_collisions (Sim.advance rnd s))))
    as Hfl.
  rewrite EL in Hnames, Hlen. rewrite EF.
  rewrite length_app, List.length_map in Hlen.
  assert (Hupd : names_fresh (field_counter (debris_field s))
                             (map Deb.update (debris_list s))).
  { apply (names_fresh_ext _ (debris_list s)); [|exact Hn].
    rewrite List.map_map. apply List.map_ext. intros d.
    apply deb_update_keeps. }
  destruct (generate_name (t_gen rnd) (debris_field s)) as [Gn Gc].
  destruct (Rltb _ _); simpl in Hlen.
  - rewrite Gc. split; [|split; lia].
    apply names_fresh_filter. eapply names_fresh_ext; [exact Hnames|].
    eapply names_fresh_snoc; [exact Hupd | exact Gn].
  - split; [|split; lia].
    apply names_fresh_filter. eapply names_fresh_ext; [exact Hnames|].
    now rewrite app_nil_r.
Qed.

Lemma step_debris_invariant (o : Op) (s : Simulation) :
  debris_invariant s -> debris_invariant (step o s).
Proof.
  intros H. destruct o as [rnd | sat | | n | sel v | sel v | i c];
    [apply tick_debris_invariant, H | ..];
    match goal with
    | |- debris_invariant (step ?o s) =>
        destruct (step_debris o s) as [EL EF]; [intros ?; discriminate|];
        not_a_tick o s Ht Hg;
        unfold debris_invariant; rewrite EL, EF, Ht; exact H
    end.
Qed.

Lemma run_debris_invariant (ops : list Op) (s : Simulation) :
  debris_invariant s -> debris_invariant (run ops s).
Proof.
  revert s. induction ops as [|o ops IH]; intros s H; [exact H|].
  rewrite run_cons. apply IH, step_debris_invariant, H.
Qed.

(** X11. In every reachable state the debris of the list are all active
    and inside the arena extended by 50, their names are pairwise
    distinct, and there are no more of them than the generator has
    produced, which is no more than the number of ticks.  Every operation
    keeps these facts. *)
Theorem debris_are_active_in_zone_and_distinct :
  forall (o : Op) (s : Simulation),
    (debris_invariant s -> debris_invariant (step o s))
    /\ (reachable s ->
        Forall (fun d => deb_active d = true /\ in_zone (deb_obj d))
               (debris_list s)
        /\ NoDup (map deb_name (debris_list s))
        /\ (st_debris_en_zone (Sim.get_stats s)
            <= field_counter (debris_field s) <= st_tick (Sim.get_stats s))%nat).
Proof.
  intros o s. split; [apply step_debris_invariant|].
  intros [ops ->].
  assert (H0 : debris_invariant Sim.init).
  { unfold debris_invariant, names_fresh. simpl.
    repeat split; try constructor; lia. }
  destruct (run_debris_invariant ops _ H0) as (Hz & [_ Hn] & Hl & Hk).
  simpl. repeat split; assumption.
Qed.

Lemma debris_are_active_in_zone_and_distinct_witness :
  reachable ex_two_debris
  /\ debris_list ex_two_debris = [ex_deb0 2; ex_deb1]
  /\ Forall (fun d => deb_active d = true /\ in_zone (deb_obj d))
            [ex_deb0 2; ex_deb1]
  /\ NoDup ["Alpha-0"; "Beta-1"]%string
  /\ (st_debris_en_zone (Sim.get_stats ex_two_debris)
      <= field_counter (debris_field ex_two_debris)
      <= st_tick (Sim.get_stats ex_two_debris))%nat.
Proof.
  assert (H : reachable ex_two_debris).
  { exists [OpTick (ex_spawn 0); OpTick (ex_spawn 1)].
    unfold run. cbn [foldl step].
    now rewrite ex_spawn_tick0, ex_spawn_tick1. }
  destruct (proj2 (debris_are_active_in_zone_and_distinct
                     OpPopEvents ex_two_debris) H) as (Hz & Hn & Hc).
  split; [exact H|]. split; [reflexivity|].
  split; [exact Hz|]. split; [exact Hn | exact Hc].
Defined.

(** ** The event log and the counters *)

Lemma advance_events (rnd : TickDraws) (s : Simulation) :
  events (Sim.advance rnd s) = events s
  /\ collisions (Sim.advance rnd s) = collisions s.
Proof.
  unfold Sim.advance. destruct (Rltb _ _); [|now split].
  now destruct (Field.generate _ _).
Qed.

Lemma tick_events (rnd : TickDraws) (s : Simulation) :
  (exists new, events (Sim.tick rnd s) = events s ++ new)
  /\ (collisions s <= collisions (Sim.tick rnd s))%nat.
Proof.
  unfold Sim.tick. destruct (game_over s).
  - split; [exists []; now rewrite app_nil_r | lia].
  - destruct (check_all_collisions_effect (Sim.advance rnd s))
      as (_ & _ & [new He] & Hc & _).
    destruct (advance_events rnd s) as [Ae Ac]. simpl.
    rewrite He, Ae in *. rewrite Ac in Hc. split; [now exists new | exact Hc].
Qed.






Lemma step_monotone (o : Op) (s : Simulation) :
  (tick_count s <= tick_count (step o s) <= S (tick_count s))%nat
  /\ (score s <= score (step o s))%nat
  /\ (collisions s <= collisions (step o s))%nat.
Proof.
  destruct o as [rnd | sat | | n | sel v | sel v | i c]; simpl;
    try (repeat split; lia).
  - destruct (game_over s) eqn:E.
    + rewrite tick_when_over by exact E. lia.
    + pose proof (tick_when_live rnd s E) as [Ht _].
      pose proof (tick_events rnd s) as [_ Hc].
      unfold Sim.tick in *. rewrite E in *.
      pose proof (check_all_collisions_frame (Sim.advance rnd s)) as Hf.
      unfold frame in Hf. injection Hf as _ _ Hs _ _.
      destruct (advance_counters rnd s) as (_ & As & _).
      split; [lia|]. split; [|exact Hc].
      unfold Sim.settle. simpl. lia.
  - destruct (deorbit_satellite_counters n s) as (Ht & _ & _ & Hc).
    cbv zeta in Ht, Hc. rewrite Ht, Hc.
    unfold Sim.deorbit_satellite.
    destruct (Sim.deorbit_scan n (satellites s)) as [[[found [|]] l']|];
      simpl; lia.
  - unfold Window._change_angle. destruct (Window.is_selected sel); simpl; lia.
  - unfold Window._change_speed. destruct (Window.is_selected sel); simpl; lia.
Qed.

(** X13. The tick counter, the score and the collision counter never
    decrease, whatever the operation and along any run; one operation adds
    at most 1 to the tick counter, and only a tick changes the tick
    counter. *)
Theorem counters_never_decrease :
  forall (o : Op) (ops : list Op) (s : Simulation),
    (tick_count s <= tick_count (step o s) <= S (tick_count s))%nat
    /\ (score s <= score (step o s))%nat
    /\ (collisions s <= collisions (step o s))%nat
    /\ ((forall rnd, o <> OpTick rnd) -> tick_count (step o s) = tick_count s)
    /\ (tick_count s <= tick_count (run ops s) <= tick_count s + length ops)%nat
    /\ (score s <= score (run ops s))%nat
    /\ (collisions s <= collisions (run ops s))%nat.
Proof.
  intros o ops s.
  destruct (step_monotone o s) as (Ht & Hs & Hc).
  split; [exact Ht|]. split; [exact Hs|]. split; [exact Hc|].
  split; [intros H; apply (proj2 (step_counters o s) H)|].
  clear. revert s. induction ops as [|o ops IH]; intros s; simpl; [lia|].
  fold (run ops (step o s)).
  destruct (step_monotone o s) as (Ht & Hs & Hc).
  destruct (IH (step o s)) as (IHt & IHs & IHc). lia.
Qed.

Lemma counters_never_decrease_witness :
  (forall rnd, OpDeorbitSatellite "A" <> OpTick rnd)
  /\ tick_count (step (OpDeorbitSatellite "A") ex_state) = tick_count ex_state.
Proof.
  assert (H : forall rnd, OpDeorbitSatellite "A" <> OpTick rnd)
    by (intros rnd; discriminate).
  split; [exact H|].
  apply (proj1 (proj2 (proj2 (proj2
           (counters_never_decrease (OpDeorbitSatellite "A") [] ex_state)))) H).
Defined.

(** ** Deorbiting by name *)

Lemma deorbit_scan_miss (n : string) (l : list Satellite) :
  (forall a, In a l -> sat_name a = n -> sat_active a = false) ->
  Sim.deorbit_scan n l = None.
Proof.
  induction l as [|a l IH]; intros H; simpl; [reflexivity|].
  destruct (String.eqb_spec (sat_name a) n) as [E | E]; simpl.
  - rewrite (H a (or_introl eq_refl) E). simpl.
    rewrite IH; [reflexivity|]. intros b Hb. apply H. now right.
  - rewrite IH; [reflexivity|]. intros b Hb. apply H. now right.
Qed.

Lemma deorbit_scan_hit (n : string) (pre post : list Satellite)
    (sat : Satellite) :
  (forall a, In a pre -> sat_name a = n -> sat_active a = false) ->
  sat_name sat = n -> sat_active sat = true ->
  Sim.deorbit_scan n (pre ++ sat :: post)
  = Some (snd (Sat.deorbit sat), fst (Sat.deorbit sat),
          pre ++ snd (Sat.deorbit sat) :: post).
Proof.
  intros Hpre Hn Ha. induction pre as [|a pre IH]; simpl.
  - rewrite Hn, String.eqb_refl, Ha. simpl. now destruct (Sat.deorbit sat).
  - assert (Hskip : String.eqb (sat_name a) n && sat_active a = false).
    { destruct (String.eqb_spec (sat_name a) n) as [E | E]; simpl;
        [|reflexivity].
      apply Hpre; [now left | exact E]. }
    rewrite Hskip, IH; [reflexivity|].
    intros b Hb. apply Hpre. now right.
Qed.

(** X14. [deorbit_satellite] acts on the first active satellite that has
    the name.  When there is none, it returns false and changes nothing,
    without any event.  When that satellite has fuel 5 or more, it is
    deorbited in place, the call returns true, adds 1 to the collision
    counter and logs the success; a second call for the same name then
    fails silently if no later satellite is active with that name.  When
    it has less fuel, the call returns false and only logs the failure. *)
Theorem deorbit_satellite_cases :
  forall (n : string) (s : Simulation) (pre post : list Satellite)
         (sat : Satellite),
    ((forall a, In a (satellites s) -> sat_name a = n -> sat_active a = false) ->
     Sim.deorbit_satellite n s = (false, s))
    /\ (satellites s = pre ++ sat :: post ->
        (forall a, In a pre -> sat_name a = n -> sat_active a = false) ->
        sat_name sat = n -> sat_active sat = true ->
        (5 <= fuel sat ->
         Sim.deorbit_satellite n s
         = (true,
            mkSimulation (pre ++ snd (Sat.deorbit sat) :: post)
                         (debris_list s) (debris_field s) (tick_count s)
                         (score s) (collisions s + 1) (deorbited s)
                         (game_over s)
                         (events s ++ [n +:+ " désorbité avec succès !"]%string))
         /\ ((forall a, In a post -> sat_name a = n -> sat_active a = false) ->
             Sim.deorbit_satellite n (snd (Sim.deorbit_satellite n s))
             = (false, snd (Sim.deorbit_satellite n s))))
        /\ (fuel sat < 5 ->
            Sim.deorbit_satellite n s
            = (false,
               mkSimulation (satellites s)
                            (debris_list s) (debris_field s) (tick_count s)
                            (score s) (collisions s) (deorbited s)
                            (game_over s)
                            (events s ++
                               [n +:+ " : carburant insuffisant pour désorbiter"]%string)))).
Proof.
  intros n s pre post sat. split.
  - intros H. unfold Sim.deorbit_satellite. now rewrite deorbit_scan_miss.
  - intros Es Hpre Hn Ha.
    assert (Hscan := deorbit_scan_hit n pre post sat Hpre Hn Ha).
    split.
    + intros Hf.
      assert (E : Sim.deorbit_satellite n s
                  = (true,
                     mkSimulation (pre ++ snd (Sat.deorbit sat) :: post)
                       (debris_list s) (debris_field s) (tick_count s)
                       (score s) (collisions s + 1) (deorbited s)
                       (game_over s)
                       (events s ++ [n +:+ " désorbité avec succès !"]%string))).
      { unfold Sim.deorbit_satellite. rewrite Es, Hscan.
        rewrite (deorbit_success sat Hf). simpl.
        unfold sat_name in *. simpl. now rewrite Hn. }
      split; [exact E|]. intros Hpost. rewrite E. simpl.
      unfold Sim.deorbit_satellite. simpl. rewrite deorbit_scan_miss;
        [reflexivity|].
      intros a Hin Hna. apply in_app_or in Hin.
      destruct Hin as [Hin | [<- | Hin]].
      * now apply Hpre.
      * now rewrite (deorbit_success sat Hf).
      * now apply Hpost.
    + intros Hf. unfold Sim.deorbit_satellite. rewrite Es, Hscan.
      rewrite (deorbit_failure sat Hf). simpl. now rewrite Hn.
Qed.

Lemma deorbit_satellite_cases_witness :
  Sim.deorbit_satellite "C" ex_state = (false, ex_state)
  /\ fst (Sim.deorbit_satellite "B" ex_state) = true
  /\ Sim.deorbit_satellite "B" (snd (Sim.deorbit_satellite "B" ex_state))
     = (false, snd (Sim.deorbit_satellite "B" ex_state)).
Proof.
  pose proof (deorbit_satellite_cases "C" ex_state [] [] ex_sat_a)
    as [Hmiss _].
  pose proof (deorbit_satellite_cases "B" ex_state [ex_sat_a] [] ex_sat_b)
    as [_ Hhit].
  assert (Hpre : forall a, In a [ex_sat_a] -> sat_name a = "B"%string ->
                           sat_active a = false).
  { intros a [<- | []] H. discriminate H. }
  assert (Hfuel : 5 <= fuel ex_sat_b) by (simpl; lra).
  destruct (Hhit eq_refl Hpre eq_refl eq_refl) as [Hok _].
  destruct (Hok Hfuel) as [E Hagain].
  split.
  - apply Hmiss. intros a [<- | [<- | []]] H; discriminate H.
  - split; [now rewrite E|]. apply Hagain. intros a [].
Defined.

(** ** The handlers of the window *)

Lemma on_selected_effect (f : Satellite -> Satellite) (n : string)
    (s : Simulation) :
  Forall2 (fun a b =>
             (sat_name a = n -> sat_active a = true -> b = f a)
             /\ (sat_name a <> n \/ sat_active a = false -> b = a))
          (satellites s) (satellites (Window.on_selected f n s)).
Proof.
  simpl. induction (satellites s) as [|a l IH]; simpl; constructor;
    [|exact IH].
  destruct (String.eqb_spec (sat_name a) n) as [E | E];
    destruct (sat_active a); simpl; split; intros; try reflexivity;
    try congruence; intuition congruence.
Qed.

(** X15. The handlers of the window for the heading and the speed change
    nothing when no satellite is selected.  Otherwise they call the
    mutator on every active satellite that has the selected name and leave
    every other satellite, the debris, the counters and the events as they
    are.  The speed slider, between 5 and 50, sets the speed of a selected
    active satellite with fuel to a tenth of its value. *)
Theorem window_handlers_touch_only_the_selected :
  forall (n : string) (v : R) (s : Simulation),
    Window._change_angle None v s = s
    /\ Window._change_speed None v s = s
    /\ Window._change_angle (Some ""%string) v s = s
    /\ Window._change_speed (Some ""%string) v s = s
    /\ (n <> ""%string ->
        Forall2 (fun a b =>
                   (sat_name a = n -> sat_active a = true ->
                    b = Sat.change_angle v a)
                   /\ (sat_name a <> n \/ sat_active a = false -> b = a))
                (satellites s)
                (satellites (Window._change_angle (Some n) v s))
        /\ Forall2 (fun a b =>
                      (sat_name a = n -> sat_active a = true ->
                       b = Sat.change_speed (v / 10) a
                       /\ (5 <= v <= 50 -> 0 < fuel a ->
                           speed (sat_obj b) = v / 10))
                      /\ (sat_name a <> n \/ sat_active a = false -> b = a))
                   (satellites s)
                   (satellites (Window._change_speed (Some n) v s))
        /\ debris_list (Window._change_angle (Some n) v s) = debris_list s
        /\ debris_list (Window._change_speed (Some n) v s) = debris_list s
        /\ events (Window._change_angle (Some n) v s) = events s
        /\ events (Window._change_speed (Some n) v s) = events s
        /\ collisions (Window._change_angle (Some n) v s) = collisions s
        /\ collisions (Window._change_speed (Some n) v s) = collisions s).
Proof.
  intros n v s. repeat (split; [reflexivity|]).
  intros Hn.
  assert (Es : Window.is_selected (Some n) = Some n).
  { simpl. apply String.eqb_neq in Hn. now rewrite Hn. }
  unfold Window._change_angle, Window._change_speed. rewrite Es.
  split; [apply on_selected_effect|].
  split; [|repeat split].
  eapply Forall2_impl; [apply on_selected_effect|].
  intros a b [Hsel Hnot]. split; [|exact Hnot].
  intros Ha Hact. rewrite (Hsel Ha Hact). split; [reflexivity|].
  intros Hv Hf. apply Rleb_false_iff in Hf.
  unfold Sat.change_speed. rewrite Hf. rewrite update_status_obj. simpl.
  rewrite py_clamp. unfold clamp, Rmax, Rmin.
  destruct (Rle_dec (v / 10) 5); destruct (Rle_dec 0.5 _); lra.
Qed.

Lemma window_handlers_touch_only_the_selected_witness :
  "B"%string <> ""%string
  /\ debris_list (Window._change_angle (Some "B"%string) 90 ex_state)
     = debris_list ex_state.
Proof.
  assert (H : "B"%string <> ""%string) by discriminate.
  split; [exact H|].
  apply (proj2 (proj2 (proj2 (proj2
           (window_handlers_touch_only_the_selected "B" 90 ex_state)))) H).
Defined.

(** ** What the collision pass counts *)

Lemma check_collision_deactivated_sd (a a' : Satellite) (d d' : Debris) :
  sat_deactivated a a' -> deb_deactivated d d' ->
  Detector.check_collision (ESat a') (EDeb d')
  = Detector.check_collision (ESat a) (EDeb d).
Proof. intros [-> | ->] [-> | ->]; reflexivity. Qed.

Lemma check_collision_deactivated_ss (a a' b b' : Satellite) :
  sat_deactivated a a' -> sat_deactivated b b' ->
  Detector.check_collision (ESat a') (ESat b')
  = Detector.check_collision (ESat a) (ESat b).
Proof. intros [-> | ->] [-> | ->]; reflexivity. Qed.

Lemma sat_debris_step_counts (s s' : Simulation) (i j : nat) :
  pass_effect s s' ->
  collisions (Sim.sat_debris_step i j s')
  = (collisions s' + hit_sat_deb s i j)%nat
  /\ pass_effect s (Sim.sat_debris_step i j s').
Proof.
  intros H. split;
    [|eapply pass_effect_trans; [exact H | apply sat_debris_step_effect]].
  destruct H as (Hs & Hd & _).
  pose proof (proj1 (Forall2_lookup _ _ _) Hs i) as Li.
  pose proof (proj1 (Forall2_lookup _ _ _) Hd j) as Lj.
  unfold Sim.sat_debris_step, hit_sat_deb.
  destruct Li as [a a' Ha|]; [|simpl; lia].
  destruct Lj as [d d' Hdd|]; [|simpl; lia].
  rewrite (check_collision_deactivated_sd a a' d d' Ha Hdd).
  destruct (Detector.check_collision (ESat a) (EDeb d)); [reflexivity|].
  destruct (Detector.check_proximity_warning _ _ _); simpl; lia.
Qed.

Lemma sat_pair_step_counts (s s' : Simulation) (snap : list nat) (i j : nat) :
  pass_effect s s' ->
  collisions (Sim.sat_pair_step snap i j s')
  = (collisions s' + 2 * hit_sat_sat s snap i j)%nat
  /\ pass_effect s (Sim.sat_pair_step snap i j s').
Proof.
  intros H. split;
    [|eapply pass_effect_trans; [exact H | apply sat_pair_step_effect]].
  destruct H as (Hs & _).
  unfold Sim.sat_pair_step, hit_sat_sat.
  destruct (snap !! i) as [a|]; [|lia].
  destruct (snap !! j) as [b|]; [|lia].
  pose proof (proj1 (Forall2_lookup _ _ _) Hs a) as La.
  pose proof (proj1 (Forall2_lookup _ _ _) Hs b) as Lb.
  destruct La as [sa sa' Ha|]; [|simpl; lia].
  destruct Lb as [sb sb' Hb|]; [|simpl; lia].
  rewrite (check_collision_deactivated_ss sa sa' sb sb' Ha Hb).
  destruct (Detector.check_collision (ESat sa) (ESat sb)); simpl; lia.
Qed.

(** A loop whose body adds [w s b] to the counter and stays in relation
    with the state [s] of the start adds the sum of the [w s b]. *)
Lemma foldl_counts {B : Type} (s : Simulation)
    (f : Simulation -> B -> Simulation) (w : B -> nat) (l : list B) :
  (forall s' b, pass_effect s s' ->
                collisions (f s' b) = (collisions s' + w b)%nat
                /\ pass_effect s (f s' b)) ->
  forall s', pass_effect s s' ->
             collisions (foldl f s' l) = (collisions s' + sum_list_with w l)%nat
             /\ pass_effect s (foldl f s' l).
Proof.
  intros Hf. induction l as [|b l IH]; intros s' H; simpl.
  - split; [lia | exact H].
  - destruct (Hf s' b H) as [Ec Hp]. destruct (IH _ Hp) as [Ec' Hp'].
    split; [lia | exact Hp'].
Qed.

Lemma sum_list_with_double {B : Type} (w : B -> nat) (l : list B) :
  sum_list_with (fun b => (2 * w b)%nat) l = (2 * sum_list_with w l)%nat.
Proof. induction l as [|b l IH]; cbn [sum_list_with]; lia. Qed.

Lemma check_all_collisions_counts (s : Simulation) :
  collisions (Sim._check_all_collisions s) = (collisions s + pass_hits s)%nat.
Proof.
  unfold Sim._check_all_collisions, Sim.sat_pair_loop, Sim.sat_debris_loop,
    pass_hits.
  set (AS := positions sat_active (satellites s)).
  set (AD := positions deb_active (debris_list s)).
  destruct (foldl_counts s
              (fun s1 i => foldl (fun s2 j => Sim.sat_debris_step i j s2) s1 AD)
              (fun i => sum_list_with (fun j => hit_sat_deb s i j) AD) AS)
    with (s' := s) as [E1 P1].
  { intros s' i H.
    apply (foldl_counts s (fun s2 j => Sim.sat_debris_step i j s2)); [|exact H].
    intros s2 j H2. now apply sat_debris_step_counts. }
  { apply pass_effect_refl. }
  destruct (foldl_counts s
              (fun s1 i =>
                 foldl (fun s2 j => Sim.sat_pair_step AS i j s2) s1
                       (seq (S i) (length AS - S i)))
              (fun i =>
                 (2 * sum_list_with (fun j => hit_sat_sat s AS i j)
                                    (seq (S i) (length AS - S i)))%nat)
              (seq 0 (length AS)))
    with (s' := foldl
                  (fun s1 i =>
                     foldl (fun s2 j => Sim.sat_debris_step i j s2) s1 AD)
                  s AS)
    as [E2 _].
  { intros s' i H.
    destruct (foldl_counts s (fun s2 j => Sim.sat_pair_step AS i j s2)
                (fun j => (2 * hit_sat_sat s AS i j)%nat)
                (seq (S i) (length AS - S i))) with (s' := s') as [E P];
      [intros s2 j H2; now apply sat_pair_step_counts | exact H |].
    split; [|exact P]. rewrite E. f_equal. apply sum_list_with_double. }
  { exact P1. }
  rewrite E2, E1, sum_list_with_double. lia.
Qed.

(** X16. The collision pass adds to the collision counter the number of
    colliding satellite-debris pairs of its snapshots plus twice the number
    of colliding pairs of satellites of its snapshot, every pair being
    judged on the positions at the start of the pass, whether or not an
    earlier collision of the same pass has deactivated one of the two.  A
    tick of a simulation that is not over adds that number, counted after
    the motion and the spawn. *)
Theorem collision_counter_counts_every_colliding_pair :
  forall (rnd : TickDraws) (s : Simulation),
    collisions (Sim._check_all_collisions s) = (collisions s + pass_hits s)%nat
    /\ (game_over s = false ->
        collisions (Sim.tick rnd s)
        = (collisions s + pass_hits (Sim.advance rnd s))%nat).
Proof.
  intros rnd s. split; [apply check_all_collisions_counts|].
  intros H. unfold Sim.tick. rewrite H. simpl.
  rewrite check_all_collisions_counts.
  now rewrite (proj2 (advance_events rnd s)).
Qed.

Lemma collision_counter_counts_every_colliding_pair_witness :
  game_over ex_state = false
  /\ pass_hits (Sim.advance ex_draws ex_state) = 3%nat
  /\ collisions (Sim.tick ex_draws ex_state)
     = (collisions ex_state + pass_hits (Sim.advance ex_draws ex_state))%nat.
Proof.
  split; [reflexivity|]. split.
  - rewrite ex_advance.
    unfold pass_hits, hit_sat_deb, hit_sat_sat, ex_moved.
    cbn [positions positions_from satellites debris_list sat_active
         deb_active sat_obj deb_obj active ex_a ex_b ex_d length seq Nat.sub
         sum_list_with lookup list_lookup].
    rewrite ex_a_hits_d, ex_b_misses_d, ex_a_hits_b. reflexivity.
  - apply (proj2 (collision_counter_counts_every_colliding_pair
                    ex_draws ex_state) eq_refl).
Defined.
